(** * TicketTracker: the ticket model of [src/App.tsx] and its mutation rules

    A shallow embedding of the React Native component [TicketTrackerMobile]
    and of the pieces it is built from ([TicketForm], [TicketCard],
    [StarRating], [ConfirmDialog]): the [Ticket] type, the utilities
    [generateId] and [formatDate], the five handlers that update the ticket
    list through [setTickets], and the user interface as a transition system
    whose events are the presses and text changes the rendered tree offers. *)

From Stdlib Require Import ZArith NArith Ascii String DecimalString DecimalZ.
From stdpp Require Import base tactics option list list_numbers.

Local Open Scope Z_scope.

(** ** JavaScript strings

    A JavaScript string is a sequence of UTF-16 code units.  String literals
    of the source are written [js "..."]. *)

Abbreviation jsstring := (list N).

Definition js (s : string) : jsstring :=
  N_of_ascii <$> list_ascii_of_string s.

(** [!s] for a string: only the empty string is falsy. *)
Definition falsy (s : jsstring) : bool :=
  match s with [] => true | _ :: _ => false end.

(** [s || d] for strings. *)
Definition or_else (s d : jsstring) : jsstring :=
  if falsy s then d else s.

(** The code units [String.prototype.trim] strips: ECMAScript's WhiteSpace
    (TAB, VT, FF, SP, NBSP, ZWNBSP and the other space separators) and
    LineTerminator (LF, CR, LS, PS). *)
Definition isWhiteSpace (c : N) : bool :=
  ((9 <=? c) && (c <=? 13) || (c =? 32) || (c =? 160) || (c =? 5760)
   || (8192 <=? c) && (c <=? 8202) || (c =? 8232) || (c =? 8233)
   || (c =? 8239) || (c =? 8287) || (c =? 12288) || (c =? 65279))%N.

Fixpoint trimStart (s : jsstring) : jsstring :=
  match s with
  | [] => []
  | c :: s' => if isWhiteSpace c then trimStart s' else s
  end.

Definition trimEnd (s : jsstring) : jsstring :=
  reverse (trimStart (reverse s)).

(** [s.trim()] *)
Definition trim (s : jsstring) : jsstring := trimEnd (trimStart s).

(** A string that is empty or made of white space only. *)
Definition blank (s : jsstring) : bool := forallb isWhiteSpace s.

(** [String(n)] for an integral number: its decimal digits, with a leading
    minus sign when negative. *)
Definition String_ (n : Z) : jsstring :=
  js (NilZero.string_of_int (Z.to_int n)).

(** [s.padStart(n, '0')] *)
Definition padStart0 (n : nat) (s : jsstring) : jsstring :=
  replicate (n - length s) 48%N ++ s.

(** [s.substr(start, len)] for [start >= 0] *)
Definition substr (start len : nat) (s : jsstring) : jsstring :=
  take len (drop start s).

(** ** Types *)

Inductive TicketStatus := Created | UnderAssistance | Completed.

#[global] Instance TicketStatus_eq_dec : EqDecision TicketStatus.
Proof. solve_decision. Defined.

(** [interface Ticket]; [rating?: number] is [None] when the property is
    absent.  The ratings the program handles are the integers of the star
    control. *)
Module Ticket.
Record t := mk {
  id : jsstring;
  title : jsstring;
  description : jsstring;
  status : TicketStatus;
  createdAt : jsstring;
  rating : option Z
}.
End Ticket.
Abbreviation Ticket := Ticket.t.

#[global] Instance Ticket_eq_dec : EqDecision Ticket.
Proof. solve_decision. Defined.

(** [Partial<Ticket>]: every property optional. *)
Module Partial.
Record t := mk {
  id : option jsstring;
  title : option jsstring;
  description : option jsstring;
  status : option TicketStatus;
  createdAt : option jsstring;
  rating : option Z
}.
End Partial.

(** [{ ...t, ...data }]: each property present in [data] overwrites the one
    of [t]; the others are copied from [t]. *)
Definition spread (t : Ticket) (data : Partial.t) : Ticket :=
  Ticket.mk
    (default (Ticket.id t) (Partial.id data))
    (default (Ticket.title t) (Partial.title data))
    (default (Ticket.description t) (Partial.description data))
    (default (Ticket.status t) (Partial.status data))
    (default (Ticket.createdAt t) (Partial.createdAt data))
    (match Partial.rating data with Some r => Some r | None => Ticket.rating t end).

(** [{ ...t, status }] *)
Definition with_status (t : Ticket) (status : TicketStatus) : Ticket :=
  Ticket.mk (Ticket.id t) (Ticket.title t) (Ticket.description t) status
            (Ticket.createdAt t) (Ticket.rating t).

(** [{ ...t, rating }] *)
Definition with_rating (t : Ticket) (rating : Z) : Ticket :=
  Ticket.mk (Ticket.id t) (Ticket.title t) (Ticket.description t)
            (Ticket.status t) (Ticket.createdAt t) (Some rating).

(** ** Sample data *)

Definition SAMPLE_TICKETS : list Ticket :=
  [ Ticket.mk (js "1") (js "Login button not responding")
      (js "The login button does not work on mobile devices when tapped multiple times.")
      Completed (js "2025-10-05 14:32") (Some 5);
    Ticket.mk (js "2") (js "Dashboard loading slowly")
      (js "Dashboard takes more than 10 seconds to load all widgets and data.")
      UnderAssistance (js "2025-10-06 09:15") None;
    Ticket.mk (js "3") (js "Email notifications not sent")
      (js "Users report not receiving email notifications for ticket updates.")
      Created (js "2025-10-06 16:45") None;
    Ticket.mk (js "4") (js "Profile picture upload fails")
      (js "Error message appears when trying to upload profile pictures larger than 2MB.")
      Completed (js "2025-10-04 11:20") (Some 4);
    Ticket.mk (js "5") (js "Search function returns no results")
      (js "The search bar does not return any results even with valid keywords.")
      UnderAssistance (js "2025-10-07 08:00") None ].

(** ** Utilities

    [generateId] and [formatDate] read the clock and the random number
    generator.  What they read is an input of the model: one [Env] holds the
    values a single [handleCreateTicket] call obtains.  The numbers are
    integers far below 10^21, which JavaScript prints in plain decimal; the
    random number enters as the string [toString(36)] makes of it. *)

Record Env := mkEnv {
  Date_now : Z;              (* Date.now(): milliseconds since the epoch *)
  Math_random_36 : jsstring; (* Math.random().toString(36) *)
  getFullYear : Z;           (* the fields of [new Date()] in formatDate *)
  getMonth : Z;
  getDate : Z;
  getHours : Z;
  getMinutes : Z
}.

(** [`ticket_${Date.now()}_${Math.random().toString(36).substr(2, 9)}`] *)
Definition generateId (e : Env) : jsstring :=
  js "ticket_" ++ String_ (Date_now e) ++ js "_" ++ substr 2 9 (Math_random_36 e).

Definition formatDate (e : Env) : jsstring :=
  String_ (getFullYear e) ++ js "-" ++
  padStart0 2 (String_ (getMonth e + 1)) ++ js "-" ++
  padStart0 2 (String_ (getDate e)) ++ js " " ++
  padStart0 2 (String_ (getHours e)) ++ js ":" ++
  padStart0 2 (String_ (getMinutes e)).

(** ** The state of the application

    [TicketTrackerMobile] holds four state variables; the mounted
    [TicketForm] holds three more. *)

Record DeleteConfirm := mkDeleteConfirm {
  visible : bool;
  ticketId : option jsstring
}.

Module TicketForm.
(** The three [useState] hooks of the form. *)
Record State := mkState {
  title : jsstring;
  description : jsstring;
  status : TicketStatus
}.

(** Their initial values: [ticket?.title || ''], [ticket?.description || ''],
    [ticket?.status || 'Created']. *)
Definition init (ticket : option Ticket) : State :=
  match ticket with
  | Some t => mkState (or_else (Ticket.title t) []) (or_else (Ticket.description t) [])
                      (Ticket.status t)
  | None => mkState [] [] Created
  end.

(** [!ticket || ticket.status === 'Created'] *)
Definition canEditContent (ticket : option Ticket) : bool :=
  match ticket with
  | None => true
  | Some t => bool_decide (Ticket.status t = Created)
  end.

(** [!!ticket] *)
Definition isEditing (ticket : option Ticket) : bool :=
  match ticket with Some _ => true | None => false end.
End TicketForm.

Record App := mkApp {
  tickets : list Ticket;
  isFormOpen : bool;
  editingTicket : option Ticket;
  deleteConfirm : DeleteConfirm;
  form : option TicketForm.State   (* [None] while the form is not mounted *)
}.

(** A handler runs to completion and leaves a new state; none of them has a
    [throw] or dereferences a value that may be [undefined]. *)
Abbreviation Handler := (App -> App).

Definition setTickets (f : list Ticket -> list Ticket) : Handler :=
  fun st => mkApp (f (tickets st)) (isFormOpen st) (editingTicket st)
                  (deleteConfirm st) (form st).

Definition setIsFormOpen (b : bool) : Handler :=
  fun st => mkApp (tickets st) b (editingTicket st) (deleteConfirm st) (form st).

Definition setEditingTicket (t : option Ticket) : Handler :=
  fun st => mkApp (tickets st) (isFormOpen st) t (deleteConfirm st) (form st).

Definition setDeleteConfirm (d : DeleteConfirm) : Handler :=
  fun st => mkApp (tickets st) (isFormOpen st) (editingTicket st) d (form st).

Definition setForm (f : option TicketForm.State) : Handler :=
  fun st => mkApp (tickets st) (isFormOpen st) (editingTicket st)
                  (deleteConfirm st) f.

(** [h1 ;; h2]: the statements of a handler body, in order. *)
Definition andThen (h1 h2 : Handler) : Handler := fun st => h2 (h1 st).

Declare Scope handler_scope.
Delimit Scope handler_scope with H.
Notation "h1 ;; h2" := (andThen h1%H h2%H)
  (at level 100, h2 at level 200, right associativity) : handler_scope.

(** ** The handlers of [TicketTrackerMobile] *)

(** [data.title!]: the non-null assertion is erased at run time.  The one
    caller passes both properties; for a [data] without them the field would
    hold [undefined], which has no counterpart in the typed record and is
    rendered here as the empty string. *)
Definition nonNull (o : option jsstring) : jsstring := default [] o.

Definition handleCreateTicket (e : Env) (data : Partial.t) : Handler :=
  let newTicket :=
    Ticket.mk (generateId e) (nonNull (Partial.title data))
              (nonNull (Partial.description data)) Created (formatDate e) None in
  setTickets (fun prev => newTicket :: prev).

Definition handleUpdateTicket (data : Partial.t) : Handler :=
  fun st =>
    match editingTicket st with
    | None => st
    | Some et =>
        (setTickets (fun prev =>
           (fun t => if decide (Ticket.id t = Ticket.id et) then spread t data else t)
             <$> prev) ;;
         setEditingTicket None)%H st
    end.

Definition handleDeleteTicket (id : jsstring) : Handler :=
  setTickets (fun prev => filter (fun t => Ticket.id t <> id) prev).

Definition handleStatusChange (id : jsstring) (status : TicketStatus) : Handler :=
  setTickets (fun prev =>
    (fun t => if decide (Ticket.id t = id) then with_status t status else t) <$> prev).

Definition handleRate (id : jsstring) (rating : Z) : Handler :=
  setTickets (fun prev =>
    (fun t => if decide (Ticket.id t = id) then with_rating t rating else t) <$> prev).

Definition openEditForm (ticket : Ticket) : Handler :=
  (setEditingTicket (Some ticket) ;; setIsFormOpen true)%H.

Definition closeForm : Handler :=
  (setIsFormOpen false ;; setEditingTicket None)%H.

(** ** [TicketForm.handleSubmit] *)

(** [{ title: title.trim(), description: description.trim(), status }] *)
Definition submitted (f : TicketForm.State) : Partial.t :=
  Partial.mk None (Some (trim (TicketForm.title f)))
             (Some (trim (TicketForm.description f)))
             (Some (TicketForm.status f)) None None.

Definition handleSubmit (f : TicketForm.State)
    (onSave : Partial.t -> Handler) (onClose : Handler) : Handler :=
  fun st =>
    if falsy (trim (TicketForm.title f)) || falsy (trim (TicketForm.description f))
    then st
    else (onSave (submitted f) ;; onClose)%H st.

(** [onSave={editingTicket ? handleUpdateTicket : handleCreateTicket}] *)
Definition onSave (e : Env) (st : App) : Partial.t -> Handler :=
  match editingTicket st with
  | Some _ => handleUpdateTicket
  | None => handleCreateTicket e
  end.

(** ** The cards of the list *)

(** [TicketCard.getActionButton]: the status the button passes to
    [onStatusChange], or [None] when no button is rendered. *)
Definition getActionButton (ticket : Ticket) : option TicketStatus :=
  match Ticket.status ticket with
  | Created => Some UnderAssistance
  | UnderAssistance => Some Completed
  | Completed => None
  end.

(** [!ticket.rating]: the [editable] property of [StarRating]. *)
Definition editable (ticket : Ticket) : bool :=
  match Ticket.rating ticket with
  | None => true
  | Some r => r =? 0
  end.

(** The stars rendered by [[1, 2, 3, 4, 5].map]. *)
Definition stars : list Z := [1; 2; 3; 4; 5].

(** ** The user interface as a transition system

    An event is one callback the rendered tree can fire.  Cards are named by
    their position in [tickets], the [data] of the [FlatList]. *)

Inductive Event :=
| PressFab
| PressEdit (i : nat)
| PressTrash (i : nat)
| PressAction (i : nat)
| PressStar (i : nat) (star : Z)
| ChangeTitle (text : jsstring)
| ChangeDescription (text : jsstring)
| PressStatusOption (s : TicketStatus)
| PressSubmit (e : Env)
| PressClose
| ConfirmCancel
| ConfirmDelete.

(** A visible [Modal] covers the screen: while one is shown the list and the
    floating button behind it receive no touches. *)
Definition modalOpen (st : App) : bool :=
  isFormOpen st || visible (deleteConfirm st).

(** [deleteConfirm.ticketId && handleDeleteTicket(deleteConfirm.ticketId)] *)
Definition onConfirm (st : App) : Handler :=
  match ticketId (deleteConfirm st) with
  | Some id => if falsy id then (fun st => st) else handleDeleteTicket id
  | None => fun st => st
  end.

(** The callback an event fires in state [st]; [None] when the control is
    not rendered, is disabled, or lies behind a modal. *)
Definition callback (st : App) (ev : Event) : option Handler :=
  match ev with
  | PressFab =>
      if modalOpen st then None else Some (setIsFormOpen true)
  | PressEdit i =>
      if modalOpen st then None else
      item ← tickets st !! i; Some (openEditForm item)
  | PressTrash i =>
      if modalOpen st then None else
      item ← tickets st !! i;
      Some (setDeleteConfirm (mkDeleteConfirm true (Some (Ticket.id item))))
  | PressAction i =>
      if modalOpen st then None else
      item ← tickets st !! i;
      status ← getActionButton item;
      Some (handleStatusChange (Ticket.id item) status)
  | PressStar i star =>
      if modalOpen st then None else
      item ← tickets st !! i;
      if bool_decide (Ticket.status item = Completed) && editable item
         && bool_decide (star ∈ stars)
      then Some (handleRate (Ticket.id item) star) else None
  | ChangeTitle text =>
      if isFormOpen st && TicketForm.canEditContent (editingTicket st) then
        f ← form st;
        Some (setForm (Some (TicketForm.mkState text (TicketForm.description f)
                                                (TicketForm.status f))))
      else None
  | ChangeDescription text =>
      if isFormOpen st && TicketForm.canEditContent (editingTicket st) then
        f ← form st;
        Some (setForm (Some (TicketForm.mkState (TicketForm.title f) text
                                                (TicketForm.status f))))
      else None
  | PressStatusOption s =>
      if isFormOpen st && TicketForm.isEditing (editingTicket st) then
        f ← form st;
        Some (setForm (Some (TicketForm.mkState (TicketForm.title f)
                                                (TicketForm.description f) s)))
      else None
  | PressSubmit e =>
      if isFormOpen st then
        f ← form st; Some (handleSubmit f (onSave e st) closeForm)
      else None
  | PressClose =>
      if isFormOpen st then Some closeForm else None
  | ConfirmCancel =>
      if visible (deleteConfirm st)
      then Some (setDeleteConfirm (mkDeleteConfirm false None)) else None
  | ConfirmDelete =>
      if visible (deleteConfirm st)
      then Some (onConfirm st ;; setDeleteConfirm (mkDeleteConfirm false None))%H
      else None
  end.

(** Rendering after a state change: the [Modal] mounts its [TicketForm]
    when it becomes visible, with fresh hooks, and unmounts it when hidden. *)
Definition render (st : App) : App :=
  if isFormOpen st then
    match form st with
    | Some _ => st
    | None => setForm (Some (TicketForm.init (editingTicket st))) st
    end
  else setForm None st.

Definition step (st : App) (ev : Event) : option App :=
  h ← callback st ev; Some (render (h st)).

Definition initial : App :=
  mkApp SAMPLE_TICKETS false None (mkDeleteConfirm false None) None.

Fixpoint run (st : App) (evs : list Event) : option App :=
  match evs with
  | [] => Some st
  | ev :: evs' => st' ← step st ev; run st' evs'
  end.

Inductive reachable : App -> Prop :=
| reachable_initial : reachable initial
| reachable_step st ev st' : reachable st -> step st ev = Some st' -> reachable st'.

(** ** The store operations, as the interface reaches them *)

(** Creating a ticket: the form, opened without a ticket and holding the
    texts [t] and [d], is submitted. *)
Definition create (e : Env) (t d : jsstring) : Handler :=
  handleSubmit (TicketForm.mkState t d Created) (handleCreateTicket e) closeForm.

(** ** Sessions

    [generated h] lists the identifiers a session has produced, [h] holding
    what each earlier call of [generateId] read from the clock and the random
    number generator. *)
Definition generated (h : list Env) : list jsstring := generateId <$> h.

(** The postcondition of a successful create with an identifier that no
    earlier call produced. *)
Definition create_yields_fresh_id : Prop :=
  forall (h : list Env) (e : Env) (t d : jsstring) (st : App),
    trim t <> [] -> trim d <> [] ->
    exists new,
      tickets (create e t d st) = new :: tickets st /\
      Ticket.status new = Created /\
      Ticket.rating new = None /\
      Ticket.createdAt new <> [] /\
      Ticket.id new ∉ generated h.

(** Two readings of the environment in the same millisecond whose random
    numbers agree on the nine characters [substr] keeps. *)
Definition env1 : Env := mkEnv 1760000000000 (js "0.4fzyo82mvyr") 2025 9 9 8 5.
Definition env2 : Env := mkEnv 1760000000000 (js "0.4fzyo82mvzk") 2025 9 9 8 5.

Definition ticket1 : Ticket :=
  Ticket.mk (js "1") (js "Login button not responding")
    (js "The login button does not work on mobile devices when tapped multiple times.")
    Completed (js "2025-10-05 14:32") (Some 5).

(** ** Changes of the list

    [changes_within R pre post]: [post] is [pre] with a ticket put in front of
    it, or with tickets taken out of it, or with every ticket replaced, in
    place, by one that [R] relates to it. *)
Definition changes_within (R : Ticket -> Ticket -> Prop)
    (pre post : list Ticket) : Prop :=
  (exists new, post = new :: pre) \/
  post `sublist_of` pre \/
  Forall2 R pre post.

(** [rating_kept t t']: a rating present on [t] is the rating of [t']. *)
Definition rating_kept (t t' : Ticket) : Prop :=
  forall v, Ticket.rating t = Some v -> Ticket.rating t' = Some v.

(** [gate t t']: when [t] is past [Created], [t'] has its title and its
    description. *)
Definition gate (t t' : Ticket) : Prop :=
  Ticket.status t <> Created ->
  Ticket.title t' = Ticket.title t /\ Ticket.description t' = Ticket.description t.

(** ** What a step does to the list

    The list after a step of the interface is the list before it, or that
    list with a ticket put in front, mapped over, or filtered. *)
Inductive tickets_change (st : App) : list Ticket -> Prop :=
| change_none :
    tickets_change st (tickets st)
| change_create e f :
    form st = Some f -> editingTicket st = None ->
    blank (TicketForm.title f) = false -> blank (TicketForm.description f) = false ->
    tickets_change st
      (Ticket.mk (generateId e) (trim (TicketForm.title f))
                 (trim (TicketForm.description f)) Created (formatDate e) None
       :: tickets st)
| change_update f et :
    isFormOpen st = true -> form st = Some f -> editingTicket st = Some et ->
    blank (TicketForm.title f) = false -> blank (TicketForm.description f) = false ->
    tickets_change st
      ((fun t => if decide (Ticket.id t = Ticket.id et)
                 then spread t (submitted f) else t) <$> tickets st)
| change_delete id :
    tickets_change st (filter (fun t => Ticket.id t <> id) (tickets st))
| change_status id s :
    tickets_change st
      ((fun t => if decide (Ticket.id t = id) then with_status t s else t)
         <$> tickets st)
| change_rating i item r :
    tickets st !! i = Some item -> editable item = true -> r ∈ stars ->
    tickets_change st
      ((fun t => if decide (Ticket.id t = Ticket.id item) then with_rating t r else t)
         <$> tickets st).

(** ** Content of a ticket *)

(** Neither empty nor white space only. *)
Definition filled (s : jsstring) : Prop := s <> [] /\ blank s = false.

Definition content_ok (t : Ticket) : Prop :=
  filled (Ticket.title t) /\ filled (Ticket.description t).

(** What the interface stores: texts that are their own trimmed form and,
    when there is a rating, one of the stars. *)
Definition stored (t : Ticket) : Prop :=
  trim (Ticket.title t) = Ticket.title t /\
  trim (Ticket.description t) = Ticket.description t /\
  forall v, Ticket.rating t = Some v -> v ∈ stars.

(** "No call of [setRating] changes a rating that is present", for the
    handler by itself, and "no step changes a rating that is present", for
    the interface. *)
Definition setRating_keeps_ratings : Prop :=
  forall (id : jsstring) (r : Z) (st : App),
    changes_within rating_kept (tickets st) (tickets (handleRate id r st)).

Definition every_step_keeps_ratings : Prop :=
  forall (st : App) (ev : Event) (st' : App),
    reachable st -> step st ev = Some st' ->
    changes_within rating_kept (tickets st) (tickets st').

(** "Every update respects the gate", for the handler by itself, and "every
    step respects the gate", for the interface. *)
Definition every_update_gated : Prop :=
  forall (st : App) (data : Partial.t),
    changes_within gate (tickets st) (tickets (handleUpdateTicket data st)).

Definition every_step_gated : Prop :=
  forall (st : App) (ev : Event) (st' : App),
    reachable st -> step st ev = Some st' ->
    changes_within gate (tickets st) (tickets st').

(** What holds of every state the interface reaches: the tickets are as the
    interface stores them, the form is mounted exactly while it is open, the
    two modals are not shown together, the ticket being edited is one of the
    list, and the texts of a form whose inputs are read-only are those of
    that ticket. *)
Record consistent (st : App) : Prop := mkConsistent {
  cons_stored : Forall stored (tickets st);
  cons_closed : isFormOpen st = false -> editingTicket st = None /\ form st = None;
  cons_open : isFormOpen st = true ->
    visible (deleteConfirm st) = false /\
    exists f, form st = Some f /\
      forall et, editingTicket st = Some et ->
        et ∈ tickets st /\
        (Ticket.status et <> Created ->
         TicketForm.title f = Ticket.title et /\
         TicketForm.description f = Ticket.description et)
}.

(** A session in which two tickets are created in the same millisecond with
    random numbers that agree on the digits kept, the first card's "Start"
    is pressed, and the first card's edit form is opened. *)
Definition colliding_session : list Event :=
  [PressFab; ChangeTitle (js "A"); ChangeDescription (js "a"); PressSubmit env1;
   PressFab; ChangeTitle (js "B"); ChangeDescription (js "b"); PressSubmit env2;
   PressAction 0; PressEdit 0].

(** A session in which a ticket is created, completed and rated 4, a second
    ticket is created with the same id, and the second is completed. *)
Definition colliding_rating_session : list Event :=
  [PressFab; ChangeTitle (js "B"); ChangeDescription (js "b"); PressSubmit env1;
   PressAction 0; PressAction 0; PressStar 0 4;
   PressFab; ChangeTitle (js "A"); ChangeDescription (js "a"); PressSubmit env2;
   PressAction 0; PressAction 0].

(** The form open for a new ticket, holding a blank title. *)
Definition blank_form : App :=
  mkApp SAMPLE_TICKETS true None (mkDeleteConfirm false None)
        (Some (TicketForm.mkState (js " ") (js "x") Created)).

(** A session that edits the third sample ticket, then creates a ticket at
    the second attempt, the first being refused for its blank description. *)
Definition edit_then_create : list Event :=
  [PressEdit 2; ChangeTitle (js "  Mail is late  "); PressSubmit env1;
   PressFab; ChangeTitle (js "x"); ChangeDescription (js " ");
   PressSubmit env1; ChangeDescription (js " y"); PressSubmit env2].

(** The first sample ticket, completed, is given the status [Created] in
    its edit form. *)
Definition reopen_first : list Event := [PressEdit 0; PressStatusOption Created].

(** ** The stars of a card *)

(** [rating || 0]: an absent rating, like the number 0, counts as 0. *)
Definition rating_or_0 (rating : option Z) : Z :=
  match rating with
  | Some r => if r =? 0 then 0 else r
  | None => 0
  end.

(** [const filled = star <= (rating || 0)] in [StarRating]. *)
Definition starFilled (rating : option Z) (star : Z) : bool :=
  star <=? rating_or_0 rating.

(** ** Shapes *)

(** The code units of the decimal digits. *)
Definition isDigit (c : N) : bool := ((48 <=? c) && (c <=? 57))%N.

(** The clock readings of a calendar date with a four-digit year:
    [getMonth] counts from 0. *)
Definition calendar (e : Env) : Prop :=
  1000 <= getFullYear e <= 9999 /\ 0 <= getMonth e <= 11 /\
  1 <= getDate e <= 31 /\ 0 <= getHours e <= 23 /\ 0 <= getMinutes e <= 59.

(** The events that only touch the hooks of the open form. *)
Definition is_form_edit (ev : Event) : bool :=
  match ev with
  | ChangeTitle _ | ChangeDescription _ | PressStatusOption _ => true
  | _ => false
  end.

(** [same_identity t t']: [t'] has the id and the creation date of [t]. *)
Definition same_identity (t t' : Ticket) : Prop :=
  Ticket.id t' = Ticket.id t /\ Ticket.createdAt t' = Ticket.createdAt t.

(** The interface shows the list alone: no modal is open and nothing of the
    form is left over. *)
Definition idle (st : App) : Prop :=
  isFormOpen st = false /\ visible (deleteConfirm st) = false /\
  editingTicket st = None /\ form st = None.

(** * Properties *)

(** Decidable facts about concrete data are settled by evaluation. *)
Ltac decide_by_compute := apply (bool_decide_unpack _); vm_compute; exact I.

(** ** Trimming *)

Example trim_both_ends : trim (js "  Printer jam 	") = js "Printer jam".
Proof. reflexivity. Qed.

Example trim_spaces_only : trim (js "   ") = [] /\ trim [160; 8195; 10]%N = [].
Proof. split; reflexivity. Qed.

Example formatDate_pads :
  formatDate (mkEnv 0 [] 2025 9 9 8 5) = js "2025-10-09 08:05".
Proof. reflexivity. Qed.

Section trim.
Implicit Types (s r : jsstring) (c : N).

Lemma trimStart_blank s : trimStart s = [] <-> blank s = true.
Proof.
  induction s as [|c s IH]; simpl; [done|].
  destruct (isWhiteSpace c); simpl; [done|]. split; discriminate.
Qed.

Lemma trimStart_head s :
  trimStart s = [] \/ exists c r, trimStart s = c :: r /\ isWhiteSpace c = false.
Proof.
  induction s as [|c s IH]; simpl; [by left|].
  destruct (isWhiteSpace c) eqn:Hc; [done|]. right. by exists c, s.
Qed.

Lemma trimStart_cons c r : isWhiteSpace c = false -> trimStart (c :: r) = c :: r.
Proof. intros Hc; simpl. by rewrite Hc. Qed.

Lemma trimStart_snoc s c :
  isWhiteSpace c = false -> trimStart (s ++ [c]) = trimStart s ++ [c].
Proof.
  intros Hc. induction s as [|d s IH]; simpl; [by rewrite Hc|].
  by destruct (isWhiteSpace d).
Qed.

Lemma trimEnd_cons c r : isWhiteSpace c = false -> trimEnd (c :: r) = c :: trimEnd r.
Proof.
  intros Hc. unfold trimEnd.
  by rewrite reverse_cons, trimStart_snoc, reverse_app.
Qed.

Lemma trimStart_idem s : trimStart (trimStart s) = trimStart s.
Proof.
  destruct (trimStart_head s) as [->|(c & r & -> & Hc)]; [done|].
  by apply trimStart_cons.
Qed.

Lemma trimEnd_idem s : trimEnd (trimEnd s) = trimEnd s.
Proof. unfold trimEnd. by rewrite reverse_involutive, trimStart_idem. Qed.

Lemma trim_idem s : trim (trim s) = trim s.
Proof.
  unfold trim.
  destruct (trimStart_head s) as [->|(c & r & -> & Hc)]; [done|].
  rewrite (trimEnd_cons c r Hc), (trimStart_cons c _ Hc).
  by rewrite <- (trimEnd_cons c r Hc), trimEnd_idem.
Qed.

(** "Empty after trimming" is "empty or white space only". *)
Lemma trim_nil_blank s : trim s = [] <-> blank s = true.
Proof.
  rewrite <- trimStart_blank. unfold trim.
  destruct (trimStart_head s) as [->|(c & r & -> & Hc)]; [done|].
  by rewrite (trimEnd_cons c r Hc).
Qed.

Lemma falsy_trim s : falsy (trim s) = blank s.
Proof.
  destruct (blank s) eqn:Hb.
  - apply trim_nil_blank in Hb. by rewrite Hb.
  - destruct (trim s) eqn:Ht; [|done].
    apply trim_nil_blank in Ht. congruence.
Qed.

Lemma blank_trim s : blank (trim s) = blank s.
Proof. by rewrite <- !falsy_trim, trim_idem. Qed.

Lemma blank_false_nonempty s : blank s = false -> s <> [].
Proof. by intros Hb ->. Qed.

End trim.

(** ** Identifiers and timestamps *)

Lemma app_sep_inj {A} (x : A) (a a' b b' : list A) :
  x ∉ a -> x ∉ a' -> a ++ x :: b = a' ++ x :: b' -> a = a' /\ b = b'.
Proof.
  revert a'. induction a as [|y a IH]; intros [|y' a'];
    rewrite ?not_elem_of_cons; intros Ha Ha' Heq; simpl in Heq.
  - by injection Heq as ->.
  - injection Heq as -> _. tauto.
  - injection Heq as -> _. tauto.
  - injection Heq as -> Heq. destruct Ha as [_ Ha], Ha' as [_ Ha'].
    by destruct (IH a' Ha Ha' Heq) as [-> ->].
Qed.

Lemma js_inj s1 s2 : js s1 = js s2 -> s1 = s2.
Proof.
  unfold js. intros Heq.
  rewrite <- (string_of_list_ascii_of_string s1), <- (string_of_list_ascii_of_string s2).
  f_equal. revert Heq. generalize (list_ascii_of_string s1) (list_ascii_of_string s2).
  induction l as [|a l IH]; intros [|a' l'] Heq; simplify_eq/=; [done|].
  f_equal; [|by apply IH].
  rewrite <- (ascii_N_embedding a), <- (ascii_N_embedding a'). congruence.
Qed.

Lemma to_int_not_nil z :
  Z.to_int z <> Decimal.Pos Decimal.Nil /\ Z.to_int z <> Decimal.Neg Decimal.Nil.
Proof.
  pose proof (to_of (Z.to_int z)) as Hn. rewrite of_to in Hn.
  split; intros Heq; rewrite Heq in Hn; discriminate.
Qed.

Lemma String__inj a b : String_ a = String_ b -> a = b.
Proof.
  unfold String_. intros Heq%js_inj.
  destruct (to_int_not_nil a) as [Ha1 Ha2], (to_int_not_nil b) as [Hb1 Hb2].
  pose proof (NilZero.isi _ Ha1 Ha2) as Ha. pose proof (NilZero.isi _ Hb1 Hb2) as Hb.
  rewrite Heq in Ha. rewrite Ha in Hb. simplify_eq.
  rewrite <- (of_to a), <- (of_to b). congruence.
Qed.

Lemma digits_no_underscore d : 95%N ∉ js (NilEmpty.string_of_uint d).
Proof.
  unfold js. induction d; simpl; [apply not_elem_of_nil|..];
    by apply not_elem_of_cons.
Qed.

Lemma string_of_uint_no_underscore d : 95%N ∉ js (NilZero.string_of_uint d).
Proof.
  destruct d; try apply digits_no_underscore.
  apply not_elem_of_cons. split; [done|]. apply not_elem_of_nil.
Qed.

Lemma String__no_underscore z : 95%N ∉ String_ z.
Proof.
  unfold String_. destruct (Z.to_int z) as [d|d]; simpl.
  - apply string_of_uint_no_underscore.
  - apply not_elem_of_cons. split; [done|]. apply string_of_uint_no_underscore.
Qed.

(** Two identifiers coincide exactly when the millisecond and the nine
    characters kept of the random number do. *)
Lemma generateId_eq e1 e2 :
  generateId e1 = generateId e2 <->
  Date_now e1 = Date_now e2 /\
  substr 2 9 (Math_random_36 e1) = substr 2 9 (Math_random_36 e2).
Proof.
  unfold generateId. split.
  - intros Heq. apply app_inv_head in Heq.
    change (js "_" ++ ?x) with (95%N :: x) in Heq.
    apply app_sep_inj in Heq as [H1 H2]; auto using String__no_underscore.
    split; [by apply String__inj|done].
  - by intros [-> ->].
Qed.

Lemma formatDate_nonempty e : formatDate e <> [].
Proof.
  unfold formatDate. intros Heq. apply (f_equal length) in Heq.
  rewrite !length_app in Heq. simpl in Heq. lia.
Qed.

(** ** Creating tickets *)

Lemma create_valid e t d st :
  trim t <> [] -> trim d <> [] ->
  create e t d st =
  closeForm (setTickets (fun prev =>
    Ticket.mk (generateId e) (trim t) (trim d) Created (formatDate e) None :: prev) st).
Proof.
  intros Ht Hd. unfold create, handleSubmit, submitted; simpl.
  destruct (trim t); [done|]. destruct (trim d); [done|]. reflexivity.
Qed.

Lemma create_invalid e t d st :
  trim t = [] \/ trim d = [] -> create e t d st = st.
Proof.
  intros [H|H]; unfold create, handleSubmit; simpl; rewrite H; simpl; [done|].
  by rewrite orb_true_r.
Qed.

Example create_sample :
  Ticket.id <$> tickets (create env1 (js " Printer jam ") (js "Tray 2") initial) =
  [js "ticket_1760000000000_4fzyo82mv"; js "1"; js "2"; js "3"; js "4"; js "5"].
Proof. vm_compute. reflexivity. Qed.

(** C1, as stated, fails: the identifier is a function of the millisecond
    clock and of nine base-36 digits of the random number, so a second create
    in the same millisecond whose random number agrees on those digits gets
    the identifier of the first. *)
Lemma create_id_collision : ~ create_yields_fresh_id.
Proof.
  intros Hclaim.
  destruct (Hclaim [env1] env2 (js "X") (js "Y") initial)
    as (new & Hnew & _ & _ & _ & Hfresh); [done..|].
  apply Hfresh. rewrite create_valid in Hnew by done.
  injection Hnew as <-. vm_compute. apply list_elem_of_here.
Qed.

(** C1 (amended): a create with non-empty trimmed title and description puts
    a ticket at the head of the list with status [Created], no rating, a
    non-empty [createdAt] and the identifier [generateId] builds; that
    identifier repeats one generated earlier in the session exactly when the
    earlier call read the same millisecond and a random number with the same
    nine digits. *)
Theorem create_postcondition (h : list Env) e t d st :
  trim t <> [] -> trim d <> [] ->
  exists new,
    tickets (create e t d st) = new :: tickets st /\
    Ticket.status new = Created /\
    Ticket.rating new = None /\
    Ticket.createdAt new <> [] /\
    Ticket.id new = generateId e /\
    (Ticket.id new ∈ generated h <->
     exists e', e' ∈ h /\ Date_now e' = Date_now e /\
       substr 2 9 (Math_random_36 e') = substr 2 9 (Math_random_36 e)).
Proof.
  intros Ht Hd. rewrite create_valid by done. eexists. split; [reflexivity|].
  simpl. repeat split; auto using formatDate_nonempty.
  - intros (e' & Hid & He')%list_elem_of_fmap. exists e'. split; [done|].
    by apply generateId_eq.
  - intros (e' & He' & Heq). apply list_elem_of_fmap. exists e'. split; [|done].
    symmetry. by apply generateId_eq.
Qed.

Lemma create_postcondition_witness :
  trim (js "X") <> [] /\ trim (js "Y") <> [] /\
  exists new,
    tickets (create env2 (js "X") (js "Y") initial) = new :: tickets initial /\
    Ticket.status new = Created /\
    Ticket.rating new = None /\
    Ticket.createdAt new <> [] /\
    Ticket.id new = generateId env2 /\
    (Ticket.id new ∈ generated [env1] <->
     exists e', e' ∈ [env1] /\ Date_now e' = Date_now env2 /\
       substr 2 9 (Math_random_36 e') = substr 2 9 (Math_random_36 env2)).
Proof.
  split; [done|]. split; [done|].
  apply (create_postcondition [env1] env2 (js "X") (js "Y") initial); done.
Defined.

(** C2: a create whose title or description is empty after trimming changes
    nothing: the state the handler leaves is the state it found, so no ticket
    is added and the list keeps its length; in the interface the press on
    "Create Ticket" is taken and leaves every state variable, the texts of
    the form included, as it was. *)
Theorem create_invalid_noop e t d st :
  trim t = [] \/ trim d = [] ->
  create e t d st = st /\
  tickets (create e t d st) = tickets st /\
  length (tickets (create e t d st)) = length (tickets st) /\
  (isFormOpen st = true -> editingTicket st = None ->
   form st = Some (TicketForm.mkState t d Created) ->
   step st (PressSubmit e) = Some st).
Proof.
  intros H. rewrite (create_invalid e t d st H). repeat split.
  intros Hopen Hed Hform. unfold step; simpl. rewrite Hopen, Hform; simpl.
  unfold onSave. rewrite Hed. fold (create e t d).
  rewrite (create_invalid e t d st H). unfold render. rewrite Hopen, Hform. done.
Qed.

Lemma create_invalid_noop_witness :
  (trim (js " ") = [] \/ trim (js "x") = []) /\
  isFormOpen blank_form = true /\ editingTicket blank_form = None /\
  form blank_form = Some (TicketForm.mkState (js " ") (js "x") Created) /\
  create env1 (js " ") (js "x") blank_form = blank_form /\
  step blank_form (PressSubmit env1) = Some blank_form.
Proof.
  destruct (create_invalid_noop env1 (js " ") (js "x") blank_form)
    as (Hsame & _ & _ & Hstep); [by left|].
  split; [by left|]. do 3 (split; [reflexivity|]).
  split; [exact Hsame|by apply Hstep].
Defined.

(** The three refused creates of the specification's examples. *)
Example create_blank_examples :
  create env1 [] (js "x") initial = initial /\
  create env1 (js "x") [] initial = initial /\
  create env1 (js " ") (js " ") initial = initial.
Proof. repeat split. Qed.

(** C3: a successful create prepends: the new ticket is the head of the list
    and the tickets that were there follow it, unchanged and in their
    order. *)
Theorem create_prepends e t d st :
  trim t <> [] -> trim d <> [] ->
  exists new,
    tickets (create e t d st) = new :: tickets st /\
    Ticket.id new = generateId e /\
    Ticket.title new = trim t /\
    Ticket.description new = trim d.
Proof. intros Ht Hd. rewrite create_valid by done. by eexists. Qed.

Lemma create_prepends_witness :
  trim (js "X") <> [] /\ trim (js "Y") <> [] /\
  exists new,
    tickets (create env1 (js "X") (js "Y") initial) = new :: tickets initial /\
    Ticket.id new = generateId env1 /\
    Ticket.title new = trim (js "X") /\
    Ticket.description new = trim (js "Y").
Proof.
  split; [done|]. split; [done|].
  apply (create_prepends env1 (js "X") (js "Y") initial); done.
Defined.

(** ** The handlers on the ticket list *)

Section handlers.
Implicit Types (st : App) (t : Ticket) (id : jsstring) (data : Partial.t).

Lemma fmap_id_on {A} (f : A -> A) (l : list A) :
  (forall x, x ∈ l -> f x = x) -> f <$> l = l.
Proof.
  intros Hf. rewrite <- (list_fmap_id l) at 2.
  apply list_fmap_ext. intros i x Hi. apply Hf. by eapply list_elem_of_lookup_2.
Qed.

Lemma filter_all {A} (P : A -> Prop) `{forall x, Decision (P x)} (l : list A) :
  (forall x, x ∈ l -> P x) -> filter P l = l.
Proof.
  induction l as [|x l IH]; intros HP; [done|].
  rewrite filter_cons_True by (apply HP; left).
  f_equal. apply IH. intros y Hy. apply HP. by right.
Qed.

Lemma absent_id_ne id (l : list Ticket) t :
  id ∉ Ticket.id <$> l -> t ∈ l -> Ticket.id t <> id.
Proof. intros Hid Ht <-. apply Hid. by apply list_elem_of_fmap_2. Qed.

Lemma handleUpdateTicket_tickets st et data :
  editingTicket st = Some et ->
  tickets (handleUpdateTicket data st) =
  (fun t => if decide (Ticket.id t = Ticket.id et) then spread t data else t)
    <$> tickets st.
Proof. unfold handleUpdateTicket. by intros ->. Qed.

End handlers.

(** The edit form reopens a completed ticket: its status row offers all
    three values whatever the ticket's status. *)
Example edit_form_reopens :
  (fun st => Ticket.status <$> tickets st !! 0%nat) <$>
    run initial (reopen_first ++ [PressSubmit env1])
  = Some (Some Created).
Proof. vm_compute. reflexivity. Qed.

(** C4: [setStatus] writes the given status on the ticket with the given id
    whatever status the ticket has, and so does an update whose patch carries
    a status; a [Completed] ticket goes back to [Created] either way. *)
Theorem setStatus_unconditional (st : App) (id : jsstring) (i : nat) (t : Ticket) :
  tickets st !! i = Some t -> Ticket.id t = id ->
  (forall s, exists t',
      tickets (handleStatusChange id s st) !! i = Some t' /\
      Ticket.status t' = s) /\
  (forall et data s,
      editingTicket st = Some et -> Ticket.id et = id ->
      Partial.status data = Some s ->
      exists t',
        tickets (handleUpdateTicket data st) !! i = Some t' /\
        Ticket.status t' = s).
Proof.
  intros Hi Hid. split.
  - intros s. exists (with_status t s). split; [|done].
    unfold handleStatusChange; simpl. rewrite list_lookup_fmap, Hi; simpl.
    by rewrite decide_True.
  - intros et data s Het Hetid Hs. exists (spread t data). split.
    + rewrite (handleUpdateTicket_tickets _ _ _ Het), list_lookup_fmap, Hi; simpl.
      rewrite decide_True; [done|congruence].
    + simpl. by rewrite Hs.
Qed.

Lemma setStatus_unconditional_witness :
  tickets (setEditingTicket (Some ticket1) initial) !! 0%nat = Some ticket1 /\
  Ticket.id ticket1 = js "1" /\
  Ticket.status ticket1 = Completed /\
  (exists t',
      tickets (handleStatusChange (js "1") Created
                 (setEditingTicket (Some ticket1) initial)) !! 0%nat = Some t' /\
      Ticket.status t' = Created) /\
  (exists t',
      tickets (handleUpdateTicket
                 (Partial.mk None None None (Some Created) None None)
                 (setEditingTicket (Some ticket1) initial)) !! 0%nat = Some t' /\
      Ticket.status t' = Created).
Proof.
  destruct (setStatus_unconditional (setEditingTicket (Some ticket1) initial)
              (js "1") 0 ticket1) as [H1 H2]; [reflexivity..|].
  repeat split; [apply H1|].
  apply (H2 ticket1); reflexivity.
Defined.

(** C10: [setStatus] changes nothing but the status of the tickets with the
    given id, and [setRating] nothing but their rating: the list keeps its
    length, every position keeps its ticket's id, title, description and
    creation date, tickets with another id are left as they were, and the
    other state variables are not written. *)
Theorem setStatus_setRating_frame (st : App) (id : jsstring) (s : TicketStatus) (r : Z) :
  (length (tickets (handleStatusChange id s st)) = length (tickets st) /\
   Ticket.id <$> tickets (handleStatusChange id s st) = Ticket.id <$> tickets st /\
   (forall i t, tickets st !! i = Some t ->
      exists t', tickets (handleStatusChange id s st) !! i = Some t' /\
        Ticket.id t' = Ticket.id t /\ Ticket.title t' = Ticket.title t /\
        Ticket.description t' = Ticket.description t /\
        Ticket.createdAt t' = Ticket.createdAt t /\
        Ticket.rating t' = Ticket.rating t /\
        (Ticket.id t = id -> Ticket.status t' = s) /\
        (Ticket.id t <> id -> t' = t)) /\
   handleStatusChange id s st =
     mkApp (tickets (handleStatusChange id s st)) (isFormOpen st) (editingTicket st)
           (deleteConfirm st) (form st)) /\
  (length (tickets (handleRate id r st)) = length (tickets st) /\
   Ticket.id <$> tickets (handleRate id r st) = Ticket.id <$> tickets st /\
   (forall i t, tickets st !! i = Some t ->
      exists t', tickets (handleRate id r st) !! i = Some t' /\
        Ticket.id t' = Ticket.id t /\ Ticket.title t' = Ticket.title t /\
        Ticket.description t' = Ticket.description t /\
        Ticket.createdAt t' = Ticket.createdAt t /\
        Ticket.status t' = Ticket.status t /\
        (Ticket.id t = id -> Ticket.rating t' = Some r) /\
        (Ticket.id t <> id -> t' = t)) /\
   handleRate id r st =
     mkApp (tickets (handleRate id r st)) (isFormOpen st) (editingTicket st)
           (deleteConfirm st) (form st)).
Proof.
  unfold handleStatusChange, handleRate; simpl. repeat split.
  - by rewrite length_fmap.
  - rewrite <- list_fmap_compose. apply list_fmap_ext. intros i t _; simpl.
    by case_decide.
  - intros i t Hi. eexists. rewrite list_lookup_fmap, Hi; simpl.
    split; [reflexivity|]. case_decide; naive_solver.
  - by rewrite length_fmap.
  - rewrite <- list_fmap_compose. apply list_fmap_ext. intros i t _; simpl.
    by case_decide.
  - intros i t Hi. eexists. rewrite list_lookup_fmap, Hi; simpl.
    split; [reflexivity|]. case_decide; naive_solver.
Qed.

(** C6: on an id no ticket has, [remove], [setStatus] and [setRating] leave
    the whole state as it was, and an update leaves the list as it was (it
    only forgets the ticket being edited); each handler is a total function,
    with no exceptional outcome. *)
Theorem absent_id_noop (st : App) (id : jsstring) :
  id ∉ Ticket.id <$> tickets st ->
  handleDeleteTicket id st = st /\
  (forall s, handleStatusChange id s st = st) /\
  (forall r, handleRate id r st = st) /\
  (forall et data,
     editingTicket st = Some et -> Ticket.id et = id ->
     tickets (handleUpdateTicket data st) = tickets st /\
     handleUpdateTicket data st = setEditingTicket None st).
Proof.
  intros Hid. pose proof (absent_id_ne id (tickets st)) as Hne.
  destruct st as [ts o ed dc f]; simpl in *.
  repeat split; intros; unfold handleDeleteTicket, handleStatusChange, handleRate,
    handleUpdateTicket, setTickets, setEditingTicket, andThen; simplify_eq/=;
    try (f_equal; [idtac]).
  - apply filter_all. intros t Ht. by apply Hne.
  - apply fmap_id_on. intros t Ht. rewrite decide_False; [done|by apply Hne].
  - apply fmap_id_on. intros t Ht. rewrite decide_False; [done|by apply Hne].
  - apply fmap_id_on. intros t Ht. rewrite decide_False; [done|by apply Hne].
  - f_equal. apply fmap_id_on. intros t Ht. rewrite decide_False; [done|by apply Hne].
Qed.

Lemma absent_id_noop_witness :
  (js "42" ∉ Ticket.id <$> tickets (setEditingTicket (Some ticket1) initial)) /\
  handleDeleteTicket (js "42") (setEditingTicket (Some ticket1) initial)
    = setEditingTicket (Some ticket1) initial.
Proof.
  assert (js "42" ∉ Ticket.id <$> tickets (setEditingTicket (Some ticket1) initial))
    as Hid by decide_by_compute.
  split; [exact Hid|].
  apply (absent_id_noop (setEditingTicket (Some ticket1) initial) (js "42") Hid).
Defined.

(** C7: after [remove id] no ticket of the list has that id, every ticket
    with another id is still there, the list is a subsequence of the former
    one (so the tickets left are unmodified and in their former order), and
    it is shorter when the id was present. *)
Theorem remove_frame (st : App) (id : jsstring) :
  id ∈ Ticket.id <$> tickets st ->
  (id ∉ Ticket.id <$> tickets (handleDeleteTicket id st)) /\
  (forall t, t ∈ tickets st -> Ticket.id t <> id ->
             t ∈ tickets (handleDeleteTicket id st)) /\
  tickets (handleDeleteTicket id st) `sublist_of` tickets st /\
  (filter (fun t => Ticket.id t <> id) (tickets (handleDeleteTicket id st)) =
     filter (fun t => Ticket.id t <> id) (tickets st)) /\
  (length (tickets (handleDeleteTicket id st)) < length (tickets st))%nat.
Proof.
  intros Hin. unfold handleDeleteTicket; simpl. repeat split.
  - intros (t & Heq & Ht)%list_elem_of_fmap. apply list_elem_of_filter in Ht as [Hne _].
    by apply Hne.
  - intros t Ht Hne. by apply list_elem_of_filter.
  - apply sublist_filter.
  - apply filter_all. intros t Ht. by apply list_elem_of_filter in Ht as [? _].
  - apply list_elem_of_fmap in Hin as (t & -> & Ht).
    apply (length_filter_lt _ _ t Ht). by intros Hne.
Qed.

Lemma remove_frame_witness :
  (js "3" ∈ Ticket.id <$> tickets initial) /\
  Ticket.id <$> tickets (handleDeleteTicket (js "3") initial)
    = [js "1"; js "2"; js "4"; js "5"] /\
  tickets (handleDeleteTicket (js "3") initial) `sublist_of` tickets initial.
Proof.
  assert (js "3" ∈ Ticket.id <$> tickets initial) as Hin
    by decide_by_compute.
  split; [exact Hin|]. split; [reflexivity|].
  apply (remove_frame initial (js "3") Hin).
Defined.

(** ** Lists changed in place *)

Lemma Forall2_fmap_self {A} (R : A -> A -> Prop) (f : A -> A) (l : list A) :
  (forall x, x ∈ l -> R x (f x)) -> Forall2 R l (f <$> l).
Proof.
  induction l as [|x l IH]; intros HR; simpl; constructor.
  - apply HR. left.
  - apply IH. intros y Hy. apply HR. by right.
Qed.

Lemma sublist_same_length {A} (l1 l2 : list A) :
  l1 `sublist_of` l2 -> length l1 = length l2 -> l1 = l2.
Proof.
  induction 1 as [|x l1 l2 _ IH|x l1 l2 Hsub _]; simpl; intros Hlen.
  - done.
  - f_equal. apply IH. lia.
  - apply sublist_length in Hsub. lia.
Qed.

(** A list of the same length is not within [R] when, at some position, its
    ticket is not related by [R] to the one that was there. *)
Lemma not_changes_within (R : Ticket -> Ticket -> Prop) pre post i t t' :
  length post = length pre ->
  pre !! i = Some t -> post !! i = Some t' ->
  t' <> t -> ~ R t t' ->
  ~ changes_within R pre post.
Proof.
  intros Hlen Ht Ht' Hne HR [[new ->]|[Hsub|Hall]].
  - simpl in Hlen. lia.
  - apply sublist_same_length in Hsub; [|done]. subst. congruence.
  - apply HR. by eapply Forall2_lookup_lr.
Qed.

(** ** Steps of the interface *)

Lemma tickets_render st : tickets (render st) = tickets st.
Proof. unfold render. by destruct (isFormOpen st), (form st). Qed.

Lemma handleSubmit_blank f onSave onClose st :
  blank (TicketForm.title f) = true \/ blank (TicketForm.description f) = true ->
  handleSubmit f onSave onClose st = st.
Proof.
  unfold handleSubmit. rewrite !falsy_trim. intros [->| ->]; [done|].
  by rewrite orb_true_r.
Qed.

Lemma handleSubmit_filled f onSave onClose st :
  blank (TicketForm.title f) = false -> blank (TicketForm.description f) = false ->
  handleSubmit f onSave onClose st = onClose (onSave (submitted f) st).
Proof. unfold handleSubmit. rewrite !falsy_trim. by intros -> ->. Qed.

(** Case analysis on the guards of [callback]. *)
Ltac callback_cases Hcb :=
  repeat match type of Hcb with
    | (if ?b then _ else _) = _ => destruct b eqn:?; [|try done]; try done
    | (?o ≫= _) = _ => destruct o eqn:?; simpl in Hcb; [|done]
    end.

Lemma step_change st ev st' :
  step st ev = Some st' -> tickets_change st (tickets st').
Proof.
  unfold step. destruct (callback st ev) as [h|] eqn:Hcb; [|done].
  intros [= <-]. rewrite tickets_render.
  destruct ev; simpl in Hcb; callback_cases Hcb; injection Hcb as <-;
    try exact (change_none st).
  - apply change_status.
  - match goal with H : _ && _ && _ = true |- _ =>
      apply andb_true_iff in H as [[_ He]%andb_true_iff Hs%bool_decide_eq_true]
    end.
    by eapply change_rating.
  - match goal with H : form st = Some ?x |- _ => rename x into f end.
    destruct (blank (TicketForm.title f)) eqn:Ht;
      [rewrite handleSubmit_blank by auto; apply change_none|].
    destruct (blank (TicketForm.description f)) eqn:Hd;
      [rewrite handleSubmit_blank by auto; apply change_none|].
    rewrite handleSubmit_filled by done. unfold onSave.
    destruct (editingTicket st) as [et|] eqn:Het.
    + unfold handleUpdateTicket. rewrite Het. by eapply change_update.
    + by eapply change_create.
  - unfold onConfirm. destruct (ticketId (deleteConfirm st)) as [id|];
      [|exact (change_none st)].
    destruct (falsy id); [exact (change_none st)|apply change_delete].
Qed.

Lemma run_reachable st evs st' : reachable st -> run st evs = Some st' -> reachable st'.
Proof.
  revert st. induction evs as [|ev evs IH]; intros st Hst Hrun; simpl in Hrun.
  - by injection Hrun as <-.
  - destruct (step st ev) as [st1|] eqn:Hstep; [|done].
    eapply IH; [|exact Hrun]. by eapply reachable_step.
Qed.

(** ** Titles and descriptions are never blank *)

Lemma filled_trim s : blank s = false -> filled (trim s).
Proof.
  intros Hb. split; [|by rewrite blank_trim].
  apply blank_false_nonempty. by rewrite blank_trim.
Qed.

Lemma change_content_ok st l :
  Forall content_ok (tickets st) -> tickets_change st l -> Forall content_ok l.
Proof.
  intros Hok Hch.
  destruct Hch as [|e f Hf Hed Ht Hd|f et Hopen Hf Het Ht Hd|id|id s|i item r Hi He Hr].
  - done.
  - constructor; [|done]. split; simpl; by apply filled_trim.
  - apply Forall_fmap. eapply Forall_impl; [exact Hok|]. intros t Hc; simpl.
    case_decide; [|done]. split; simpl; by apply filled_trim.
  - apply Forall_forall. intros t [_ Ht]%list_elem_of_filter.
    by eapply Forall_forall in Hok.
  - apply Forall_fmap. eapply Forall_impl; [exact Hok|]. intros t Hc; simpl.
    by case_decide.
  - apply Forall_fmap. eapply Forall_impl; [exact Hok|]. intros t Hc; simpl.
    by case_decide.
Qed.

(** [handleUpdateTicket] by itself stores what it is given; the check is the
    one [handleSubmit] makes before calling it. *)
Example handleUpdateTicket_unvalidated :
  Ticket.title <$>
    tickets (handleUpdateTicket (Partial.mk None (Some []) None None None None)
               (setEditingTicket (Some ticket1) initial)) !! 0%nat
  = Some [].
Proof. reflexivity. Qed.

(** C8: every ticket of every state the application reaches has a title and
    a description that are neither empty nor white space only.  It holds of
    the sample tickets, every step of the interface preserves it, and so does
    the submission of the edit form, the one caller of
    [handleUpdateTicket]. *)
Theorem content_never_blank :
  Forall content_ok (tickets initial) /\
  (forall st ev st',
     Forall content_ok (tickets st) -> step st ev = Some st' ->
     Forall content_ok (tickets st')) /\
  (forall st f,
     Forall content_ok (tickets st) ->
     Forall content_ok (tickets (handleSubmit f handleUpdateTicket closeForm st))) /\
  (forall st, reachable st -> Forall content_ok (tickets st)).
Proof.
  assert (Forall content_ok (tickets initial)) as Hinit.
  { repeat constructor; vm_compute; done. }
  assert (forall st ev st', Forall content_ok (tickets st) -> step st ev = Some st' ->
            Forall content_ok (tickets st')) as Hstep.
  { intros st ev st' Hok Hst. eapply change_content_ok; [exact Hok|].
    by eapply step_change. }
  repeat split; [done|done| |].
  - intros st f Hok.
    destruct (blank (TicketForm.title f)) eqn:Ht;
      [by rewrite handleSubmit_blank by auto|].
    destruct (blank (TicketForm.description f)) eqn:Hd;
      [by rewrite handleSubmit_blank by auto|].
    rewrite handleSubmit_filled by done. unfold handleUpdateTicket.
    destruct (editingTicket st) as [et|]; simpl; [|done].
    apply Forall_fmap. eapply Forall_impl; [exact Hok|]. intros t Hc; simpl.
    case_decide; [|done]. split; simpl; by apply filled_trim.
  - induction 1 as [|st ev st' _ IH Hst]; [done|]. by eapply Hstep.
Qed.

Lemma content_never_blank_witness :
  exists st,
    run initial edit_then_create = Some st /\
    reachable st /\
    Forall content_ok (tickets st).
Proof.
  destruct (run initial edit_then_create) as [st|] eqn:Hrun;
    [|by vm_compute in Hrun].
  assert (reachable st) as Hreach
    by (eapply run_reachable; [apply reachable_initial|exact Hrun]).
  exists st. split; [reflexivity|]. split; [exact Hreach|].
  apply content_never_blank. exact Hreach.
Defined.

(** ** The states the interface reaches are consistent *)

Lemma change_stored st l :
  Forall stored (tickets st) -> tickets_change st l -> Forall stored l.
Proof.
  intros Hok Hch.
  destruct Hch as [|e f Hf Hed Hbt Hbd|f et Hopen Hf Het Hbt Hbd|id|id s|i item r Hi He Hr].
  - done.
  - constructor; [|done]. repeat split; simpl; auto using trim_idem. done.
  - apply Forall_fmap. eapply Forall_impl; [exact Hok|]. intros t (Ht & Hd & Hv); simpl.
    case_decide; [|done]. repeat split; simpl; auto using trim_idem.
  - apply Forall_forall. intros t [_ Ht]%list_elem_of_filter.
    by eapply Forall_forall in Hok.
  - apply Forall_fmap. eapply Forall_impl; [exact Hok|]. intros t Hc; simpl.
    by case_decide.
  - apply Forall_fmap. eapply Forall_impl; [exact Hok|]. intros t (Ht & Hd & Hv); simpl.
    case_decide; [|done]. repeat split; simpl; [done..|]. by intros v [= <-].
Qed.

Lemma stored_intro t :
  trim (Ticket.title t) = Ticket.title t ->
  trim (Ticket.description t) = Ticket.description t ->
  match Ticket.rating t with Some v => bool_decide (v ∈ stars) | None => true end = true ->
  stored t.
Proof.
  intros Ht Hd Hr. repeat split; [done..|]. intros v Hv. rewrite Hv in Hr.
  by apply bool_decide_eq_true in Hr.
Qed.

Lemma consistent_initial : consistent initial.
Proof.
  split; [|done|done]. simpl. unfold SAMPLE_TICKETS.
  repeat (apply Forall_cons_2; [apply stored_intro; reflexivity|]).
  apply Forall_nil_2.
Qed.

Lemma step_consistent st ev st' :
  consistent st -> step st ev = Some st' -> consistent st'.
Proof.
  intros [Htr Hcl Hop] Hstep.
  assert (Forall stored (tickets st')) as Htr'
    by (eapply change_stored; eauto using step_change).
  unfold step in Hstep. destruct (callback st ev) as [h|] eqn:Hcb; [|done].
  injection Hstep as <-.
  destruct st as [ts o ed dc fm]. unfold modalOpen in *. simpl in *.
  destruct o; simpl in *;
    [destruct (Hop eq_refl) as (Hv & f & -> & Hf)|
     destruct (Hcl eq_refl) as [-> ->]]; clear Hop Hcl;
  (destruct ev; simpl in Hcb; try done; callback_cases Hcb; injection Hcb as <-).
  all: simpl in *.
  all: try (split; simpl;
            [done|
             intros; first [done | by split | by split; [|eexists; split]]..]).
  - split; simpl; [done|done|]. intros _. split; [done|]. eexists. split; [done|].
    intros et ->. destruct (Hf et eq_refl) as [Hin _]. split; [done|].
    simpl in Heqb. apply bool_decide_eq_true in Heqb. done.
  - split; simpl; [done|done|]. intros _. split; [done|]. eexists. split; [done|].
    intros et ->. destruct (Hf et eq_refl) as [Hin _]. split; [done|].
    simpl in Heqb. apply bool_decide_eq_true in Heqb. done.
  - destruct (blank (TicketForm.title f) || blank (TicketForm.description f)) eqn:Hb.
    + apply orb_true_iff in Hb. rewrite handleSubmit_blank by done.
      split; simpl; [done|done|]. intros _. split; [done|]. by exists f.
    + apply orb_false_iff in Hb as [Ht Hd].
      rewrite handleSubmit_filled in * by done.
      unfold onSave, handleUpdateTicket in *; simpl in *.
      destruct ed; simpl in *; split; simpl; done.
  - unfold modalOpen in Heqb; simpl in Heqb.
    split; simpl; [done|done|]. intros _. split; [done|]. eexists. split; [done|].
    intros et [= <-]. split; [by eapply list_elem_of_lookup_2|]. intros _.
    unfold or_else. by destruct (Ticket.title t), (Ticket.description t).
  - unfold onConfirm in *; simpl in *.
    destruct (ticketId dc) as [id|]; [destruct (falsy id)|]; simpl in *;
      split; simpl; done.
Qed.

Lemma reachable_consistent st : reachable st -> consistent st.
Proof.
  induction 1 as [|st ev st' _ IH Hstep]; [apply consistent_initial|].
  by eapply step_consistent.
Qed.

(** ** The gate on title and description *)

Lemma NoDup_id_inj (l : list Ticket) t t' :
  NoDup (Ticket.id <$> l) -> t ∈ l -> t' ∈ l -> Ticket.id t = Ticket.id t' -> t = t'.
Proof.
  induction l as [|x l IH]; simpl; intros Hnd Ht Ht' Hid.
  - by apply elem_of_nil in Ht.
  - apply NoDup_cons in Hnd as [Hx Hnd].
    apply elem_of_cons in Ht as [->|Ht], Ht' as [->|Ht']; [done|..].
    + exfalso. apply Hx. rewrite Hid. by apply list_elem_of_fmap_2.
    + exfalso. apply Hx. rewrite <- Hid. by apply list_elem_of_fmap_2.
    + by apply IH.
Qed.

Example colliding_session_tickets :
  (fun st => (fun t => (Ticket.id t, Ticket.title t, Ticket.status t))
               <$> take 2 (tickets st)) <$> run initial colliding_session
  = Some [(js "ticket_1760000000000_4fzyo82mv", js "B", UnderAssistance);
          (js "ticket_1760000000000_4fzyo82mv", js "A", UnderAssistance)].
Proof. vm_compute. reflexivity. Qed.

(** C9, as stated, fails.  [handleUpdateTicket] spreads whatever patch it is
    given over the ticket, whatever its status: a title patch on the
    completed first sample ticket changes its title.  And in the interface,
    once two tickets share an id, saving the edit form of one of them, its
    read-only texts untouched, writes those texts over the other, although
    both are under assistance. *)
Lemma content_gate_breaks : ~ every_update_gated /\ ~ every_step_gated.
Proof.
  split.
  - intros Hclaim.
    specialize (Hclaim (setEditingTicket (Some ticket1) initial)
                  (Partial.mk None (Some (js "Changed")) None None None None)).
    revert Hclaim.
    apply (not_changes_within _ _ _ 0 ticket1
             (spread ticket1
                (Partial.mk None (Some (js "Changed")) None None None None)));
      [done..|].
    intros Hgate. by destruct Hgate.
  - intros Hclaim.
    destruct (run initial colliding_session) as [st|] eqn:Hrun; [|by vm_compute in Hrun].
    assert (reachable st) as Hreach
      by (eapply run_reachable; [apply reachable_initial|exact Hrun]).
    destruct (step st (PressSubmit env1)) as [st'|] eqn:Hstep;
      [|vm_compute in Hrun; injection Hrun as <-; by vm_compute in Hstep].
    specialize (Hclaim st (PressSubmit env1) st' Hreach Hstep).
    vm_compute in Hrun. injection Hrun as <-.
    vm_compute in Hstep. injection Hstep as <-.
    revert Hclaim.
    apply (not_changes_within _ _ _ 1
      (Ticket.mk (generateId env1) (js "A") (js "a") UnderAssistance (formatDate env1) None)
      (Ticket.mk (generateId env1) (js "B") (js "b") UnderAssistance (formatDate env1) None));
      [done..|].
    intros Hgate. by destruct Hgate.
Qed.

(** C9 (amended): [handleUpdateTicket] and [handleSubmit] do not look at the
    status; the gate is the form, whose title and description inputs accept
    text only while the ticket being edited has status [Created].  In every
    step of the interface from a state whose tickets have pairwise distinct
    ids, a ticket whose status is [UnderAssistance] or [Completed] keeps its
    title and its description. *)
Theorem content_gated_by_form (st : App) (ev : Event) (st' : App) :
  reachable st -> step st ev = Some st' ->
  NoDup (Ticket.id <$> tickets st) ->
  changes_within gate (tickets st) (tickets st') /\
  (forall text, ev = ChangeTitle text \/ ev = ChangeDescription text ->
     TicketForm.canEditContent (editingTicket st) = true).
Proof.
  intros Hreach Hstep Hnd. split.
  - pose proof (reachable_consistent st Hreach) as [Htr Hcl Hop].
    pose proof (step_change st ev st' Hstep) as Hch. unfold changes_within.
    destruct Hch as [|e f Hf Hed Hbt Hbd|f et Hopen Hf Het Hbt Hbd|id|id s|i item r _ _ _].
    + right. by left.
    + left. by eexists.
    + right. right. apply Forall2_fmap_self. intros t Ht Hs.
      case_decide as Hte; [|done]. simpl.
      destruct (Hop Hopen) as (_ & f' & Hf' & Hedit).
      rewrite Hf in Hf'. injection Hf' as <-.
      destruct (Hedit et Het) as [Hin Hro].
      assert (t = et) as -> by exact (NoDup_id_inj _ t et Hnd Ht Hin Hte).
      destruct (Hro Hs) as [-> ->].
      eapply Forall_forall in Htr as (-> & -> & _); done.
    + right. left. apply sublist_filter.
    + right. right. apply Forall2_fmap_self. intros t _ _. by case_decide.
    + right. right. apply Forall2_fmap_self. intros t _ _. by case_decide.
  - intros text Hev. unfold step in Hstep.
    destruct (callback st ev) as [h|] eqn:Hcb; [|done].
    destruct Hev as [-> | ->]; simpl in Hcb;
      destruct (isFormOpen st); simpl in Hcb; try done;
      by destruct (TicketForm.canEditContent (editingTicket st)).
Qed.

Lemma content_gated_by_form_witness :
  exists st st',
    run initial reopen_first = Some st /\
    step st (PressSubmit env1) = Some st' /\
    reachable st /\
    NoDup (Ticket.id <$> tickets st) /\
    Ticket.status <$> tickets st !! 0%nat = Some Completed /\
    Ticket.status <$> tickets st' !! 0%nat = Some Created /\
    changes_within gate (tickets st) (tickets st').
Proof.
  destruct (run initial reopen_first) as [st|] eqn:Hrun; [|by vm_compute in Hrun].
  assert (reachable st) as Hreach
    by (eapply run_reachable; [apply reachable_initial|exact Hrun]).
  destruct (step st (PressSubmit env1)) as [st'|] eqn:Hstep;
    [|vm_compute in Hrun; injection Hrun as <-; by vm_compute in Hstep].
  assert (NoDup (Ticket.id <$> tickets st) /\
          Ticket.status <$> tickets st !! 0%nat = Some Completed /\
          Ticket.status <$> tickets st' !! 0%nat = Some Created) as (Hnd & Hs & Hs').
  { vm_compute in Hrun. injection Hrun as <-.
    vm_compute in Hstep. injection Hstep as <-.
    repeat split; try reflexivity; decide_by_compute. }
  exists st, st'. do 6 (split; [done|]).
  apply (content_gated_by_form st (PressSubmit env1) st' Hreach Hstep Hnd).
Defined.

Lemma setStatus_setRating_frame_witness :
  tickets initial !! 2%nat = Some
    (Ticket.mk (js "3") (js "Email notifications not sent")
       (js "Users report not receiving email notifications for ticket updates.")
       Created (js "2025-10-06 16:45") None) /\
  exists t',
    tickets (handleStatusChange (js "3") Completed initial) !! 2%nat = Some t' /\
    Ticket.id t' = js "3" /\
    Ticket.title t' = js "Email notifications not sent" /\
    Ticket.status t' = Completed.
Proof.
  split; [reflexivity|].
  destruct (setStatus_setRating_frame initial (js "3") Completed 5)
    as [(_ & _ & Hframe & _) _].
  destruct (Hframe 2%nat _ eq_refl) as (t' & Ht' & Hid & Htitle & _ & _ & _ & Hs & _).
  exists t'. repeat split; [exact Ht'|exact Hid|exact Htitle|by apply Hs].
Defined.

(** ** Ratings *)

Example colliding_rating_session_tickets :
  (fun st => (fun t => (Ticket.title t, Ticket.status t, Ticket.rating t))
               <$> take 2 (tickets st)) <$> run initial colliding_rating_session
  = Some [(js "A", Completed, None); (js "B", Completed, Some 4)].
Proof. vm_compute. reflexivity. Qed.

(** C5, as stated, fails: [handleRate] writes the rating without looking at
    the one the ticket has.  The first sample ticket is rated 5; rating it 3
    leaves it rated 3.  The star control is disabled on a rated ticket, yet
    once two tickets share an id, rating the unrated one rewrites the rating
    of the other. *)
Lemma setRating_overwrites : ~ setRating_keeps_ratings /\ ~ every_step_keeps_ratings.
Proof.
  split.
  - intros Hclaim. specialize (Hclaim (js "1") 3 initial). revert Hclaim.
    apply (not_changes_within _ _ _ 0 ticket1 (with_rating ticket1 3)); [done..|].
    intros Hkept. by specialize (Hkept 5 eq_refl).
  - intros Hclaim.
    destruct (run initial colliding_rating_session) as [st|] eqn:Hrun;
      [|by vm_compute in Hrun].
    assert (reachable st) as Hreach
      by (eapply run_reachable; [apply reachable_initial|exact Hrun]).
    destruct (step st (PressStar 0 2)) as [st'|] eqn:Hstep;
      [|vm_compute in Hrun; injection Hrun as <-; by vm_compute in Hstep].
    specialize (Hclaim st (PressStar 0 2) st' Hreach Hstep).
    vm_compute in Hrun. injection Hrun as <-.
    vm_compute in Hstep. injection Hstep as <-.
    revert Hclaim.
    apply (not_changes_within _ _ _ 1
      (Ticket.mk (generateId env1) (js "B") (js "b") Completed (formatDate env1) (Some 4))
      (Ticket.mk (generateId env1) (js "B") (js "b") Completed (formatDate env1) (Some 2)));
      [done..|].
    intros Hkept. by specialize (Hkept 4 eq_refl).
Qed.

(** C5 (amended): a rating that is present is left alone by create, by
    update with a patch that carries no rating, by remove (for the tickets it
    keeps), by [setStatus], and by [setRating] on another id; [setRating] on
    the ticket's own id replaces it by the given value.  The star control of
    a card calls [setRating] only for a completed ticket without a rating, so
    that in every step of the interface from a state whose tickets have
    pairwise distinct ids a rating that is present stays as it is. *)
Theorem rating_frame (st : App) :
  (forall e t d, tickets st `suffix_of` tickets (create e t d st)) /\
  (forall data, Partial.rating data = None ->
     Forall2 rating_kept (tickets st) (tickets (handleUpdateTicket data st))) /\
  (forall id, tickets (handleDeleteTicket id st) `sublist_of` tickets st) /\
  (forall id s,
     Forall2 rating_kept (tickets st) (tickets (handleStatusChange id s st))) /\
  (forall id r,
     Forall2 (fun t t' => if decide (Ticket.id t = id)
                          then Ticket.rating t' = Some r else t' = t)
             (tickets st) (tickets (handleRate id r st))) /\
  (forall i star h, callback st (PressStar i star) = Some h ->
     exists item, tickets st !! i = Some item /\
       Ticket.status item = Completed /\ editable item = true /\
       h = handleRate (Ticket.id item) star) /\
  (forall ev st',
     reachable st -> NoDup (Ticket.id <$> tickets st) -> step st ev = Some st' ->
     changes_within rating_kept (tickets st) (tickets st')).
Proof.
  repeat split.
  - intros e t d. unfold create, handleSubmit; simpl.
    destruct (_ || _); simpl; [done|]. by eexists [_].
  - intros data Hr. unfold handleUpdateTicket.
    destruct (editingTicket st) as [et|]; simpl.
    + apply Forall2_fmap_self. intros t _ v Hv. case_decide; [|done].
      simpl. by rewrite Hr.
    + apply Forall_Forall2_diag, Forall_true. by intros t v Hv.
  - intros id. apply sublist_filter.
  - intros id s. apply Forall2_fmap_self. intros t _ v Hv. by case_decide.
  - intros id r. apply Forall2_fmap_self. intros t _.
    by destruct (decide (Ticket.id t = id)).
  - intros i star h Hcb. simpl in Hcb.
    destruct (modalOpen st); [done|].
    destruct (tickets st !! i) as [item|]; [|done]. simpl in Hcb.
    destruct (bool_decide (Ticket.status item = Completed)) eqn:Hs; [|done].
    destruct (editable item) eqn:He; [|done].
    destruct (bool_decide (star ∈ stars)); [|done]. simplify_eq/=.
    apply bool_decide_eq_true in Hs. by exists item.
  - intros ev st' Hreach Hnd Hstep.
    pose proof (reachable_consistent st Hreach) as [Hst _ _].
    pose proof (step_change st ev st' Hstep) as Hch. unfold changes_within.
    destruct Hch as [|e f Hf Hed Hbt Hbd|f et Hopen Hf Het Hbt Hbd|id|id s|i item r Hi He Hr].
    + right. by left.
    + left. by eexists.
    + right. right. apply Forall2_fmap_self. intros t _ v Hv. by case_decide.
    + right. left. apply sublist_filter.
    + right. right. apply Forall2_fmap_self. intros t _ v Hv. by case_decide.
    + right. right. apply Forall2_fmap_self. intros t Ht v Hv.
      case_decide as Hid; [|done]. exfalso.
      apply list_elem_of_lookup_2 in Hi.
      assert (t = item) as -> by exact (NoDup_id_inj _ t item Hnd Ht Hi Hid).
      eapply Forall_forall in Hst as (_ & _ & Hstars); [|exact Hi].
      specialize (Hstars v Hv). unfold editable in He. rewrite Hv in He.
      apply Z.eqb_eq in He as ->. revert Hstars. by apply (bool_decide_unpack _).
Qed.

Lemma rating_frame_witness :
  exists st st',
    run initial reopen_first = Some st /\
    step st (PressSubmit env1) = Some st' /\
    reachable st /\
    NoDup (Ticket.id <$> tickets st) /\
    Ticket.rating <$> tickets st !! 0%nat = Some (Some 5) /\
    changes_within rating_kept (tickets st) (tickets st').
Proof.
  destruct (run initial reopen_first) as [st|] eqn:Hrun; [|by vm_compute in Hrun].
  assert (reachable st) as Hreach
    by (eapply run_reachable; [apply reachable_initial|exact Hrun]).
  destruct (step st (PressSubmit env1)) as [st'|] eqn:Hstep;
    [|vm_compute in Hrun; injection Hrun as <-; by vm_compute in Hstep].
  assert (NoDup (Ticket.id <$> tickets st) /\
          Ticket.rating <$> tickets st !! 0%nat = Some (Some 5)) as (Hnd & Hr).
  { vm_compute in Hrun. injection Hrun as <-.
    split; [decide_by_compute|reflexivity]. }
  exists st, st'. do 5 (split; [done|]).
  destruct (rating_frame st) as (_ & _ & _ & _ & _ & _ & Hsteps).
  exact (Hsteps (PressSubmit env1) st' Hreach Hnd Hstep).
Defined.

(** * Further properties of the code *)

(** ** Composition of the handlers *)

Section composition.
Implicit Types (st : App) (id : jsstring).

(** X1: removing the ticket a create has just put in front, under an id no
    other ticket has, gives back the list as it was before the create. *)
Theorem remove_undoes_create e t d st :
  trim t <> [] -> trim d <> [] ->
  generateId e ∉ Ticket.id <$> tickets st ->
  tickets (handleDeleteTicket (generateId e) (create e t d st)) = tickets st.
Proof.
  intros Ht Hd Hfresh. rewrite create_valid by done.
  unfold handleDeleteTicket; simpl. rewrite filter_cons_False by (by intros H; apply H).
  apply filter_all. intros x Hx. by eapply absent_id_ne.
Qed.

Lemma remove_undoes_create_witness :
  trim (js " Scanner ") <> [] /\ trim (js "No power") <> [] /\
  (generateId env1 ∉ Ticket.id <$> tickets initial) /\
  tickets (handleDeleteTicket (generateId env1)
             (create env1 (js " Scanner ") (js "No power") initial))
    = tickets initial.
Proof.
  assert (generateId env1 ∉ Ticket.id <$> tickets initial) as Hfresh
    by decide_by_compute.
  split; [done|]. split; [done|]. split; [exact Hfresh|].
  apply (remove_undoes_create env1 (js " Scanner ") (js "No power") initial);
    [done|done|exact Hfresh].
Defined.

(** X2: removing is idempotent, and two removals give the same list in
    either order. *)
Theorem remove_idempotent_commutes id1 id2 st :
  handleDeleteTicket id1 (handleDeleteTicket id1 st) = handleDeleteTicket id1 st /\
  handleDeleteTicket id1 (handleDeleteTicket id2 st) =
    handleDeleteTicket id2 (handleDeleteTicket id1 st).
Proof.
  unfold handleDeleteTicket, setTickets; simpl. split; f_equal.
  - apply filter_all. intros t Ht. by apply list_elem_of_filter in Ht as [? _].
  - rewrite !list_filter_filter. apply list_filter_iff. intros t. tauto.
Qed.

(** X3: of two status writes on one id the second wins, and so of two
    ratings; a status write and a rating commute, on the same id or not. *)
Theorem last_write_wins id id' s1 s2 r1 r2 st :
  handleStatusChange id s2 (handleStatusChange id s1 st) = handleStatusChange id s2 st /\
  handleRate id r2 (handleRate id r1 st) = handleRate id r2 st /\
  handleRate id' r1 (handleStatusChange id s1 st) =
    handleStatusChange id s1 (handleRate id' r1 st).
Proof.
  unfold handleStatusChange, handleRate, setTickets; simpl.
  repeat split; f_equal; rewrite <- !list_fmap_compose;
    apply list_fmap_ext; intros i t _; simpl;
    repeat (case_decide; simpl in *); done.
Qed.

End composition.

(** ** The shape of identifiers and timestamps *)

Lemma String__digits_2 n :
  0 <= n <= 99 ->
  exists a b, padStart0 2 (String_ n) = [a; b] /\ isDigit a = true /\ isDigit b = true.
Proof.
  intros Hn.
  assert (Forall (fun n => match padStart0 2 (String_ n) with
                           | [a; b] => isDigit a && isDigit b
                           | _ => false
                           end = true) (seqZ 0 100)) as Hall by decide_by_compute.
  rewrite Forall_forall in Hall. specialize (Hall n).
  rewrite elem_of_seqZ in Hall. specialize (Hall ltac:(lia)). cbv beta in Hall.
  destruct (padStart0 2 (String_ n)) as [|a [|b [|? ?]]]; try done.
  apply andb_true_iff in Hall as [Ha Hb]. by exists a, b.
Qed.

Lemma String__digits_4 n :
  1000 <= n <= 9999 ->
  exists a b c d, String_ n = [a; b; c; d] /\
    isDigit a = true /\ isDigit b = true /\ isDigit c = true /\ isDigit d = true.
Proof.
  intros Hn.
  assert (Forall (fun n => match String_ n with
                           | [a; b; c; d] => isDigit a && isDigit b && isDigit c && isDigit d
                           | _ => false
                           end = true) (seqZ 1000 9000)) as Hall by decide_by_compute.
  rewrite Forall_forall in Hall. specialize (Hall n).
  rewrite elem_of_seqZ in Hall. specialize (Hall ltac:(lia)). cbv beta in Hall.
  destruct (String_ n) as [|a [|b [|c [|d [|? ?]]]]]; try done.
  apply andb_true_iff in Hall as [[[Ha Hb]%andb_true_iff Hc]%andb_true_iff Hd].
  by exists a, b, c, d.
Qed.

(** X4: for the clock readings of a calendar date with a four-digit year,
    [formatDate] yields sixteen characters of the form YYYY-MM-DD HH:MM: digits
    everywhere but for the two hyphens, the space and the colon, each part
    zero-padded to its width. *)
Theorem formatDate_shape e :
  calendar e ->
  exists y1 y2 y3 y4 m1 m2 d1 d2 h1 h2 n1 n2,
    formatDate e =
      [y1; y2; y3; y4; 45; m1; m2; 45; d1; d2; 32; h1; h2; 58; n1; n2]%N /\
    forallb isDigit [y1; y2; y3; y4; m1; m2; d1; d2; h1; h2; n1; n2] = true.
Proof.
  intros (Hy & Hm & Hd & Hh & Hn). unfold formatDate.
  destruct (String__digits_4 (getFullYear e) Hy)
    as (y1 & y2 & y3 & y4 & -> & Hy1 & Hy2 & Hy3 & Hy4).
  destruct (String__digits_2 (getMonth e + 1)) as (m1 & m2 & -> & Hm1 & Hm2); [lia|].
  destruct (String__digits_2 (getDate e)) as (d1 & d2 & -> & Hd1 & Hd2); [lia|].
  destruct (String__digits_2 (getHours e)) as (h1 & h2 & -> & Hh1 & Hh2); [lia|].
  destruct (String__digits_2 (getMinutes e)) as (n1 & n2 & -> & Hn1 & Hn2); [lia|].
  exists y1, y2, y3, y4, m1, m2, d1, d2, h1, h2, n1, n2. split; [reflexivity|].
  simpl. by rewrite Hy1, Hy2, Hy3, Hy4, Hm1, Hm2, Hd1, Hd2, Hh1, Hh2, Hn1, Hn2.
Qed.

Lemma formatDate_shape_witness :
  calendar env1 /\
  exists y1 y2 y3 y4 m1 m2 d1 d2 h1 h2 n1 n2,
    formatDate env1 =
      [y1; y2; y3; y4; 45; m1; m2; 45; d1; d2; 32; h1; h2; 58; n1; n2]%N /\
    forallb isDigit [y1; y2; y3; y4; m1; m2; d1; d2; h1; h2; n1; n2] = true.
Proof.
  assert (calendar env1) as Hc by (unfold calendar; simpl; lia).
  split; [exact Hc|]. apply (formatDate_shape env1 Hc).
Defined.

(** X5: an identifier [generateId] builds begins with "ticket_" and ends
    with at most nine characters of the random number after an underscore;
    it is never empty and never the id of a sample ticket. *)
Theorem generateId_shape e :
  exists suffix,
    generateId e = js "ticket_" ++ String_ (Date_now e) ++ js "_" ++ suffix /\
    (length suffix <= 9)%nat /\
    suffix `prefix_of` drop 2 (Math_random_36 e) /\
    generateId e <> [] /\
    generateId e ∉ Ticket.id <$> SAMPLE_TICKETS.
Proof.
  exists (substr 2 9 (Math_random_36 e)). unfold generateId, substr.
  split; [done|]. split; [rewrite length_take; lia|].
  split; [apply prefix_take|]. split; [done|].
  intros Hin. simpl in Hin. rewrite !elem_of_cons in Hin.
  destruct Hin as [H|[H|[H|[H|[H|H]]]]]; try discriminate H.
  by apply elem_of_nil in H.
Qed.

(** ** The stars shown *)

(** X6: [StarRating] fills the stars up to the rating: none for a ticket
    without rating, and as many as the rating for a rating from 1 to 5. *)
Theorem stars_filled rating :
  (rating = None -> filter (fun star => starFilled rating star = true) stars = []) /\
  (forall r, rating = Some r -> 1 <= r <= 5 ->
     filter (fun star => starFilled rating star = true) stars = seqZ 1 r /\
     length (filter (fun star => starFilled rating star = true) stars) = Z.to_nat r).
Proof.
  split.
  - by intros ->.
  - intros r -> Hr.
    assert (r = 1 \/ r = 2 \/ r = 3 \/ r = 4 \/ r = 5) as Hcases by lia.
    destruct Hcases as [->|[->|[->|[->| ->]]]]; split; reflexivity.
Qed.

Lemma stars_filled_witness :
  1 <= 4 <= 5 /\
  filter (fun star => starFilled (Some 4) star = true) stars = seqZ 1 4.
Proof.
  split; [lia|].
  destruct (stars_filled (Some 4)) as [_ Hsome].
  destruct (Hsome 4 eq_refl) as [Hfilter _]; [lia|exact Hfilter].
Defined.

(** ** The interface at rest and in its modals *)

Lemma reachable_idle st : reachable st -> modalOpen st = false -> idle st.
Proof.
  intros Hreach Hmodal. apply reachable_consistent in Hreach as [_ Hcl _].
  unfold modalOpen in Hmodal. apply orb_false_iff in Hmodal as [Ho Hv].
  destruct (Hcl Ho) as [Hed Hf]. by repeat split.
Qed.

Lemma reachable_content_ok st : reachable st -> Forall content_ok (tickets st).
Proof.
  induction 1 as [|st ev st' _ IH Hstep].
  - repeat constructor; vm_compute; done.
  - eapply change_content_ok; [exact IH|]. by eapply step_change.
Qed.

Lemma generateId_nonempty e : generateId e <> [].
Proof. done. Qed.

Lemma change_ids_nonempty st l :
  Forall (fun t => Ticket.id t <> []) (tickets st) -> tickets_change st l ->
  Forall (fun t => Ticket.id t <> []) l.
Proof.
  intros Hok Hch.
  destruct Hch as [|e f Hf Hed Hbt Hbd|f et Hopen Hf Het Hbt Hbd|id|id s|i item r Hi He Hr].
  - done.
  - constructor; [apply generateId_nonempty|done].
  - apply Forall_fmap. eapply Forall_impl; [exact Hok|]. intros t Hc; simpl.
    by case_decide.
  - apply Forall_forall. intros t [_ Ht]%list_elem_of_filter.
    by eapply Forall_forall in Hok.
  - apply Forall_fmap. eapply Forall_impl; [exact Hok|]. intros t Hc; simpl.
    by case_decide.
  - apply Forall_fmap. eapply Forall_impl; [exact Hok|]. intros t Hc; simpl.
    by case_decide.
Qed.

Lemma reachable_ids_nonempty st :
  reachable st -> Forall (fun t => Ticket.id t <> []) (tickets st).
Proof.
  induction 1 as [|st ev st' _ IH Hstep].
  - repeat constructor; done.
  - eapply change_ids_nonempty; [exact IH|]. by eapply step_change.
Qed.

Lemma step_deleteConfirm st ev st' :
  step st ev = Some st' ->
  deleteConfirm st' = deleteConfirm st \/
  visible (deleteConfirm st') = true \/
  deleteConfirm st' = mkDeleteConfirm false None.
Proof.
  unfold step. destruct (callback st ev) as [h|] eqn:Hcb; [|done].
  intros [= <-].
  assert (forall x, deleteConfirm (render x) = deleteConfirm x) as ->
    by (intros x; unfold render; by destruct (isFormOpen x), (form x)).
  destruct ev; simpl in Hcb; callback_cases Hcb; injection Hcb as <-;
    try (by left); try (by right; left); try (by right; right).
  unfold handleSubmit, onSave, handleUpdateTicket.
  destruct (_ || _); [by left|]. left. by destruct (editingTicket st) eqn:Hed; simpl; rewrite ?Hed.
Qed.

Lemma reachable_dialog_closed st :
  reachable st -> visible (deleteConfirm st) = false ->
  deleteConfirm st = mkDeleteConfirm false None.
Proof.
  induction 1 as [|st ev st' _ IH Hstep]; [done|]. intros Hv.
  destruct (step_deleteConfirm st ev st' Hstep) as [Heq|[Hvis|Heq]].
  - rewrite Heq in *. by apply IH.
  - congruence.
  - done.
Qed.

(** X7: in every state the interface reaches, the form is mounted exactly
    while it is open, the form and the delete dialog are never shown
    together, a closed form leaves no ticket being edited, an open form's
    ticket is one of the list, and a hidden dialog remembers no ticket. *)
Theorem interface_consistent st :
  reachable st ->
  (isFormOpen st = true <-> is_Some (form st)) /\
  (isFormOpen st && visible (deleteConfirm st) = false) /\
  (isFormOpen st = false -> editingTicket st = None) /\
  (forall et, editingTicket st = Some et -> et ∈ tickets st) /\
  (visible (deleteConfirm st) = false -> ticketId (deleteConfirm st) = None).
Proof.
  intros Hreach. pose proof (reachable_consistent st Hreach) as [_ Hcl Hop].
  repeat split.
  - intros Ho. destruct (Hop Ho) as (_ & f & -> & _). by eexists.
  - intros [f Hf]. destruct (isFormOpen st); [done|].
    destruct (Hcl eq_refl) as [_ Hnone]. congruence.
  - destruct (isFormOpen st); [|done]. by destruct (Hop eq_refl) as [-> _].
  - intros Ho. by destruct (Hcl Ho).
  - intros et Het. destruct (isFormOpen st) eqn:Ho.
    + destruct (Hop eq_refl) as (_ & f & _ & Hin). by destruct (Hin et Het).
    + destruct (Hcl eq_refl) as [Hnone _]. congruence.
  - intros Hv. by rewrite (reachable_dialog_closed st Hreach Hv).
Qed.

Lemma interface_consistent_witness :
  exists st,
    run initial colliding_session = Some st /\
    reachable st /\
    (isFormOpen st = true <-> is_Some (form st)) /\
    isFormOpen st = true.
Proof.
  destruct (run initial colliding_session) as [st|] eqn:Hrun; [|by vm_compute in Hrun].
  assert (reachable st) as Hreach
    by (eapply run_reachable; [apply reachable_initial|exact Hrun]).
  exists st. split; [reflexivity|]. split; [exact Hreach|].
  split; [apply (interface_consistent st Hreach)|].
  vm_compute in Hrun. by injection Hrun as <-.
Defined.

(** X8: every ticket of every state the interface reaches holds a title and
    a description without white space at either end, and a rating, when it
    has one, from 1 to 5. *)
Theorem reachable_tickets_stored st :
  reachable st ->
  forall t, t ∈ tickets st ->
    trim (Ticket.title t) = Ticket.title t /\
    trim (Ticket.description t) = Ticket.description t /\
    (forall r, Ticket.rating t = Some r -> 1 <= r <= 5).
Proof.
  intros Hreach t Ht. apply reachable_consistent in Hreach as [Hst _ _].
  eapply Forall_forall in Hst as (Ht1 & Ht2 & Hr); [|exact Ht].
  split; [done|]. split; [done|]. intros r Hrating. specialize (Hr r Hrating).
  unfold stars in Hr. rewrite !elem_of_cons, elem_of_nil in Hr. lia.
Qed.

Lemma reachable_tickets_stored_witness :
  exists st t,
    run initial edit_then_create = Some st /\
    reachable st /\ tickets st !! 3%nat = Some t /\
    trim (Ticket.title t) = Ticket.title t /\ Ticket.title t = js "Mail is late".
Proof.
  destruct (run initial edit_then_create) as [st|] eqn:Hrun; [|by vm_compute in Hrun].
  assert (reachable st) as Hreach
    by (eapply run_reachable; [apply reachable_initial|exact Hrun]).
  destruct (tickets st !! 3%nat) as [t|] eqn:Ht;
    [|vm_compute in Hrun; injection Hrun as <-; by vm_compute in Ht].
  exists st, t. split; [reflexivity|]. split; [exact Hreach|]. split; [exact Ht|].
  split.
  - apply (reachable_tickets_stored st Hreach t). by eapply list_elem_of_lookup_2.
  - vm_compute in Hrun. injection Hrun as <-. vm_compute in Ht. by injection Ht as <-.
Defined.

(** ** Sessions through the modals *)

(** X9: with the list at rest, pressing the trash icon of a card changes no
    ticket; confirming then removes every ticket with the card's id and
    cancelling leaves the state as it was.  The guard on [ticketId] never
    stops a confirmed removal. *)
Theorem trash_then_confirm st i item :
  reachable st -> modalOpen st = false -> tickets st !! i = Some item ->
  (exists st1, step st (PressTrash i) = Some st1 /\ tickets st1 = tickets st) /\
  run st [PressTrash i; ConfirmDelete] = Some (handleDeleteTicket (Ticket.id item) st) /\
  run st [PressTrash i; ConfirmCancel] = Some st.
Proof.
  intros Hreach Hmodal Hi.
  destruct (reachable_idle st Hreach Hmodal) as (Ho & Hv & Hed & Hf).
  pose proof (reachable_dialog_closed st Hreach Hv) as Hdc.
  pose proof (reachable_ids_nonempty st Hreach) as Hne.
  eapply Forall_forall in Hne; [|by eapply list_elem_of_lookup_2].
  destruct st as [ts o ed dc fm]; simpl in *; subst.
  unfold step, callback, modalOpen; simpl. rewrite Hi; simpl.
  unfold step, callback, onConfirm, render; simpl.
  repeat split; [by eexists|].
  destruct (Ticket.id item); done.
Qed.

Lemma trash_then_confirm_witness :
  reachable initial /\ modalOpen initial = false /\
  tickets initial !! 1%nat = Some
    (Ticket.mk (js "2") (js "Dashboard loading slowly")
       (js "Dashboard takes more than 10 seconds to load all widgets and data.")
       UnderAssistance (js "2025-10-06 09:15") None) /\
  run initial [PressTrash 1; ConfirmDelete] = Some (handleDeleteTicket (js "2") initial).
Proof.
  split; [apply reachable_initial|]. split; [reflexivity|]. split; [reflexivity|].
  apply (trash_then_confirm initial 1 _ reachable_initial eq_refl eq_refl).
Defined.

Lemma run_step st ev st1 evs :
  step st ev = Some st1 -> run st (ev :: evs) = run st1 evs.
Proof. intros Hstep. simpl. by rewrite Hstep. Qed.

Lemma form_edit_keeps st ev st' :
  is_form_edit ev = true -> step st ev = Some st' ->
  isFormOpen st = true /\ isFormOpen st' = true /\
  tickets st' = tickets st /\ deleteConfirm st' = deleteConfirm st.
Proof.
  intros Hev. unfold step.
  destruct (callback st ev) as [h|] eqn:Hcb; [|done]. intros [= <-].
  destruct ev; try done; simpl in Hcb;
    destruct (isFormOpen st) eqn:Ho; simpl in Hcb; try done;
    callback_cases Hcb; injection Hcb as <-;
    unfold render; simpl; rewrite Ho; done.
Qed.

Lemma close_after_edits st evs st' :
  forallb is_form_edit evs = true -> isFormOpen st = true ->
  run st (evs ++ [PressClose]) = Some st' ->
  st' = mkApp (tickets st) false None (deleteConfirm st) None.
Proof.
  revert st. induction evs as [|ev evs IH]; intros st Hevs Ho Hrun; simpl in *.
  - unfold step in Hrun; simpl in Hrun. rewrite Ho in Hrun; simpl in Hrun.
    by injection Hrun as <-.
  - apply andb_true_iff in Hevs as [Hev Hevs].
    destruct (step st ev) as [st1|] eqn:Hstep; [|done]. simpl in Hrun.
    destruct (form_edit_keeps st ev st1 Hev Hstep) as (_ & Ho1 & <- & <-).
    by apply IH.
Qed.

(** X10: closing the form discards it.  From the list at rest, opening the
    form for a new ticket or for a card, typing and choosing in it any number
    of times, and closing it, brings back the very state the session started
    from. *)
Theorem form_cancel_discards st opener evs st' :
  reachable st -> modalOpen st = false ->
  opener = PressFab \/ (exists i, opener = PressEdit i) ->
  forallb is_form_edit evs = true ->
  run st (opener :: evs ++ [PressClose]) = Some st' ->
  st' = st.
Proof.
  intros Hreach Hmodal Hopener Hevs Hrun.
  destruct (reachable_idle st Hreach Hmodal) as (Ho & Hv & Hed & Hf).
  simpl in Hrun. destruct (step st opener) as [st1|] eqn:Hstep; [|done].
  simpl in Hrun.
  assert (isFormOpen st1 = true /\ tickets st1 = tickets st /\
          deleteConfirm st1 = deleteConfirm st) as (Ho1 & Ht1 & Hd1).
  { unfold step in Hstep.
    destruct Hopener as [->|[i ->]]; simpl in Hstep; rewrite Hmodal in Hstep.
    - injection Hstep as <-. unfold render; simpl. by destruct (form st).
    - destruct (tickets st !! i); [|done]. injection Hstep as <-.
      unfold render; simpl. by destruct (form st). }
  rewrite (close_after_edits st1 evs st' Hevs Ho1 Hrun), Ht1, Hd1.
  destruct st; simpl in *. by subst.
Qed.

Lemma form_cancel_discards_witness :
  reachable initial /\ modalOpen initial = false /\
  run initial (PressEdit 2 :: [ChangeTitle (js "Other"); PressStatusOption Completed;
                               ChangeDescription []] ++ [PressClose])
    = Some initial.
Proof.
  split; [apply reachable_initial|]. split; [reflexivity|].
  destruct (run initial (PressEdit 2 :: [ChangeTitle (js "Other");
              PressStatusOption Completed; ChangeDescription []] ++ [PressClose]))
    as [st'|] eqn:Hrun; [|by vm_compute in Hrun].
  f_equal.
  apply (form_cancel_discards initial (PressEdit 2)
           [ChangeTitle (js "Other"); PressStatusOption Completed; ChangeDescription []]
           st' reachable_initial eq_refl); [right; by exists 2%nat|reflexivity|exact Hrun].
Defined.

(** X11: from the list at rest, with pairwise distinct ids, opening a card's
    edit form, choosing a status and saving does to the state exactly what
    [handleStatusChange] does with the card's id and that status: the texts
    the form sends back are the ticket's own. *)
Theorem edit_status_is_setStatus st i item s e :
  reachable st -> modalOpen st = false ->
  NoDup (Ticket.id <$> tickets st) -> tickets st !! i = Some item ->
  run st [PressEdit i; PressStatusOption s; PressSubmit e]
    = Some (handleStatusChange (Ticket.id item) s st).
Proof.
  intros Hreach Hmodal Hnd Hi.
  destruct (reachable_idle st Hreach Hmodal) as (Ho & Hv & Hed & Hf).
  pose proof (reachable_consistent st Hreach) as [Hst _ _].
  pose proof (reachable_content_ok st Hreach) as Hok.
  pose proof (list_elem_of_lookup_2 _ _ _ Hi) as Hin.
  eapply Forall_forall in Hok as [[Ht1 Hbt] [Hd1 Hbd]]; [|exact Hin].
  pose proof Hst as Hall.
  eapply Forall_forall in Hst as (Htt & Htd & _); [|exact Hin].
  destruct st as [ts o ed dc fm]; simpl in Ho, Hv, Hed, Hf, Hi, Hin, Hnd; subst.
  assert (or_else (Ticket.title item) [] = Ticket.title item) as Hot
    by (unfold or_else; by destruct (Ticket.title item)).
  assert (or_else (Ticket.description item) [] = Ticket.description item) as Hod
    by (unfold or_else; by destruct (Ticket.description item)).
  assert (step (mkApp ts false None dc None) (PressEdit i) =
          Some (mkApp ts true (Some item) dc
                  (Some (TicketForm.mkState (Ticket.title item)
                           (Ticket.description item) (Ticket.status item)))))
    as H1 by (unfold step, callback, modalOpen; simpl; rewrite Hv, Hi; simpl;
              unfold render; simpl; by rewrite Hot, Hod).
  rewrite (run_step _ _ _ _ H1).
  erewrite run_step by reflexivity.
  erewrite run_step; [reflexivity|].
  unfold step, callback; simpl.
  rewrite handleSubmit_filled by done. unfold onSave; simpl.
  unfold handleUpdateTicket, handleStatusChange, closeForm, setTickets, andThen,
    render, setForm, setEditingTicket, setIsFormOpen; simpl.
  do 2 f_equal. apply list_fmap_ext. intros j t Hj.
  case_decide as Hid; [|done].
  assert (t = item) as ->
    by (eapply (NoDup_id_inj ts); eauto using list_elem_of_lookup_2).
  unfold spread, submitted, with_status; simpl. by rewrite Htt, Htd.
Qed.

Lemma edit_status_is_setStatus_witness :
  reachable initial /\ modalOpen initial = false /\
  NoDup (Ticket.id <$> tickets initial) /\
  tickets initial !! 0%nat = Some ticket1 /\
  run initial [PressEdit 0; PressStatusOption UnderAssistance; PressSubmit env1]
    = Some (handleStatusChange (js "1") UnderAssistance initial).
Proof.
  assert (NoDup (Ticket.id <$> tickets initial)) as Hnd by decide_by_compute.
  split; [apply reachable_initial|]. split; [reflexivity|]. split; [exact Hnd|].
  split; [reflexivity|].
  apply (edit_status_is_setStatus initial 0 ticket1 UnderAssistance env1
           reachable_initial eq_refl Hnd eq_refl).
Defined.

(** X12: from the list at rest, pressing the floating button, typing a title
    and a description that are not blank, and pressing "Create Ticket" leaves
    the state [create] computes: the new ticket in front, the form closed. *)
Theorem new_form_creates st e t d :
  reachable st -> modalOpen st = false ->
  trim t <> [] -> trim d <> [] ->
  run st [PressFab; ChangeTitle t; ChangeDescription d; PressSubmit e]
    = Some (create e t d st).
Proof.
  intros Hreach Hmodal Ht Hd.
  destruct (reachable_idle st Hreach Hmodal) as (Ho & Hv & Hed & Hf).
  rewrite create_valid by done.
  assert (blank t = false) as Hbt
    by (destruct (blank t) eqn:Hb; [by apply trim_nil_blank in Hb|done]).
  assert (blank d = false) as Hbd
    by (destruct (blank d) eqn:Hb; [by apply trim_nil_blank in Hb|done]).
  destruct st as [ts o ed dc fm]; simpl in Ho, Hv, Hed, Hf; subst.
  assert (step (mkApp ts false None dc None) PressFab =
          Some (mkApp ts true None dc (Some (TicketForm.mkState [] [] Created))))
    as H1 by (unfold step, callback, modalOpen; simpl; by rewrite Hv).
  rewrite (run_step _ _ _ _ H1).
  erewrite run_step by reflexivity.
  erewrite run_step by reflexivity.
  erewrite run_step; [reflexivity|].
  unfold step, callback; simpl.
  rewrite handleSubmit_filled by done. reflexivity.
Qed.

Lemma new_form_creates_witness :
  reachable initial /\ modalOpen initial = false /\
  trim (js " Scanner ") <> [] /\ trim (js "No power") <> [] /\
  run initial [PressFab; ChangeTitle (js " Scanner "); ChangeDescription (js "No power");
               PressSubmit env1]
    = Some (create env1 (js " Scanner ") (js "No power") initial).
Proof.
  split; [apply reachable_initial|]. split; [reflexivity|].
  split; [done|]. split; [done|].
  apply (new_form_creates initial env1 (js " Scanner ") (js "No power")
           reachable_initial eq_refl); done.
Defined.

(** ** What no step does *)

(** X13: no step of the interface, from any state, changes the id or the
    creation date of a ticket: the list gets a ticket in front, or loses
    tickets, or is changed in place with every id and date kept. *)
Theorem identity_immutable st ev st' :
  step st ev = Some st' ->
  changes_within same_identity (tickets st) (tickets st').
Proof.
  intros Hstep. pose proof (step_change st ev st' Hstep) as Hch.
  unfold changes_within.
  destruct Hch as [|e f Hf Hed Hbt Hbd|f et Hopen Hf Het Hbt Hbd|id|id s|i item r Hi He Hr].
  - right. by left.
  - left. by eexists.
  - right. right. apply Forall2_fmap_self. intros t _. by case_decide.
  - right. left. apply sublist_filter.
  - right. right. apply Forall2_fmap_self. intros t _. by case_decide.
  - right. right. apply Forall2_fmap_self. intros t _. by case_decide.
Qed.

Lemma identity_immutable_witness :
  exists st st',
    run initial reopen_first = Some st /\
    step st (PressSubmit env1) = Some st' /\
    changes_within same_identity (tickets st) (tickets st').
Proof.
  destruct (run initial reopen_first) as [st|] eqn:Hrun; [|by vm_compute in Hrun].
  destruct (step st (PressSubmit env1)) as [st'|] eqn:Hstep;
    [|vm_compute in Hrun; injection Hrun as <-; by vm_compute in Hstep].
  exists st, st'. split; [reflexivity|]. split; [exact Hstep|].
  apply (identity_immutable st (PressSubmit env1) st' Hstep).
Defined.

Lemma fmap_keeps_ids (g : Ticket -> Ticket) (l : list Ticket) :
  (forall t, Ticket.id (g t) = Ticket.id t) ->
  Ticket.id <$> (g <$> l) = Ticket.id <$> l.
Proof.
  intros Hg. rewrite <- list_fmap_compose. apply list_fmap_ext. intros i t _. apply Hg.
Qed.

(** Only the submission of the form for a new ticket makes the list longer,
    and the ticket it adds has the id drawn at that submission. *)
Lemma step_grows st ev st' :
  step st ev = Some st' ->
  length (tickets st') = S (length (tickets st)) ->
  exists e new, ev = PressSubmit e /\ tickets st' = new :: tickets st /\
    Ticket.id new = generateId e.
Proof.
  unfold step. destruct (callback st ev) as [h|] eqn:Hcb; [|done].
  intros [= <-]. rewrite tickets_render.
  destruct ev; simpl in Hcb; callback_cases Hcb; injection Hcb as <-; simpl;
    rewrite ?length_fmap; try lia.
  - match goal with H : form st = Some ?x |- _ => rename x into f end.
    destruct (blank (TicketForm.title f)) eqn:Hbt;
      [rewrite handleSubmit_blank by auto; lia|].
    destruct (blank (TicketForm.description f)) eqn:Hbd;
      [rewrite handleSubmit_blank by auto; lia|].
    rewrite handleSubmit_filled by done. unfold onSave, handleUpdateTicket.
    destruct (editingTicket st) as [et|] eqn:Het; simpl; rewrite ?Het; simpl;
      rewrite ?length_fmap; [lia|].
    intros _. by eexists e, _.
  - unfold onConfirm. destruct (ticketId (deleteConfirm st)) as [id|]; simpl; [|lia].
    destruct (falsy id); simpl; [lia|].
    pose proof (length_filter (fun t => Ticket.id t <> id) (tickets st)). lia.
Qed.

(** X14: the ids of the list stay pairwise distinct through every step, as
    long as the id a submitted form draws for a new ticket is not already in
    the list. *)
Theorem ids_stay_distinct st ev st' :
  NoDup (Ticket.id <$> tickets st) ->
  step st ev = Some st' ->
  (forall e, ev = PressSubmit e -> generateId e ∉ Ticket.id <$> tickets st) ->
  NoDup (Ticket.id <$> tickets st').
Proof.
  intros Hnd Hstep Hfresh.
  destruct (decide (length (tickets st') = S (length (tickets st)))) as [Hlen|Hlen].
  - destruct (step_grows st ev st' Hstep Hlen) as (e & new & -> & -> & Hid).
    simpl. apply NoDup_cons. split; [|done]. rewrite Hid. by apply Hfresh.
  - pose proof (step_change st ev st' Hstep) as Hch.
    remember (tickets st') as l eqn:Hl.
    destruct Hch as [|e f Hf Hed Hbt Hbd|f et Hopen Hf Het Hbt Hbd|id|id s|i item r Hi He Hr].
    + done.
    + by simpl in Hlen.
    + rewrite fmap_keeps_ids; [done|]. intros t. by case_decide.
    + eapply sublist_NoDup; [exact Hnd|]. apply fmap_sublist, sublist_filter.
    + rewrite fmap_keeps_ids; [done|]. intros t. by case_decide.
    + rewrite fmap_keeps_ids; [done|]. intros t. by case_decide.
Qed.

Lemma ids_stay_distinct_witness :
  NoDup (Ticket.id <$> tickets blank_form) /\
  (forall e, PressSubmit env1 = PressSubmit e ->
             generateId e ∉ Ticket.id <$> tickets blank_form) /\
  exists st', step (setForm (Some (TicketForm.mkState (js "a") (js "b") Created))
                      blank_form) (PressSubmit env1) = Some st' /\
              NoDup (Ticket.id <$> tickets st').
Proof.
  assert (NoDup (Ticket.id <$> tickets blank_form)) as Hnd by decide_by_compute.
  assert (forall e, PressSubmit env1 = PressSubmit e ->
                    generateId e ∉ Ticket.id <$> tickets blank_form) as Hfresh
    by (intros e [= <-]; decide_by_compute).
  split; [exact Hnd|]. split; [exact Hfresh|].
  eexists. split; [reflexivity|].
  eapply (ids_stay_distinct
            (setForm (Some (TicketForm.mkState (js "a") (js "b") Created)) blank_form)
            (PressSubmit env1)); [exact Hnd|reflexivity|exact Hfresh].
Defined.

(** ** The buttons of a card *)

Lemma fmap_on_id_insert (g : Ticket -> Ticket) (l : list Ticket) i item :
  NoDup (Ticket.id <$> l) -> l !! i = Some item ->
  (fun t => if decide (Ticket.id t = Ticket.id item) then g t else t) <$> l
  = <[i := g item]> l.
Proof.
  intros Hnd Hi. apply list_eq. intros j. rewrite list_lookup_fmap.
  destruct (decide (j = i)) as [->|Hne].
  - rewrite list_lookup_insert_eq by (by eapply lookup_lt_Some).
    rewrite Hi; simpl. by rewrite decide_True.
  - rewrite list_lookup_insert_ne by done.
    destruct (l !! j) as [t|] eqn:Hj; simpl; [|done].
    rewrite decide_False; [done|]. intros Hid. apply Hne.
    eapply (NoDup_lookup _ _ _ _ Hnd); rewrite list_lookup_fmap.
    + by rewrite Hj; simpl; rewrite Hid.
    + by rewrite Hi.
Qed.



(** X16: the action button of a card only moves forward.  With pairwise
    distinct ids, a press that is taken replaces the card's ticket by the
    same ticket one status further, [Created] to [UnderAssistance] to
    [Completed], and touches no other ticket; a completed ticket has no such
    button. *)
Theorem action_advances st i item :
  tickets st !! i = Some item ->
  (Ticket.status item = Completed -> step st (PressAction i) = None) /\
  (forall st', step st (PressAction i) = Some st' ->
     NoDup (Ticket.id <$> tickets st) ->
     exists s,
       tickets st' = <[i := with_status item s]> (tickets st) /\
       (Ticket.status item = Created /\ s = UnderAssistance \/
        Ticket.status item = UnderAssistance /\ s = Completed)).
Proof.
  intros Hi. unfold step, callback. split.
  - intros Hs. destruct (modalOpen st); [done|]. rewrite Hi; simpl.
    unfold getActionButton. by rewrite Hs.
  - intros st' Hstep Hnd. destruct (modalOpen st); [done|].
    rewrite Hi in Hstep; simpl in Hstep.
    destruct (getActionButton item) as [s|] eqn:Hbtn; [|done]. simpl in Hstep.
    injection Hstep as <-. exists s. rewrite tickets_render. split.
    + unfold handleStatusChange; simpl.
      by apply (fmap_on_id_insert (fun t => with_status t s)).
    + unfold getActionButton in Hbtn.
      destruct (Ticket.status item); simplify_eq; auto.
Qed.

Lemma action_advances_witness :
  tickets initial !! 2%nat = Some
    (Ticket.mk (js "3") (js "Email notifications not sent")
       (js "Users report not receiving email notifications for ticket updates.")
       Created (js "2025-10-06 16:45") None) /\
  NoDup (Ticket.id <$> tickets initial) /\
  exists st' s,
    step initial (PressAction 2) = Some st' /\
    tickets st' !! 2%nat = Some
      (Ticket.mk (js "3") (js "Email notifications not sent")
         (js "Users report not receiving email notifications for ticket updates.")
         s (js "2025-10-06 16:45") None) /\
    s = UnderAssistance.
Proof.
  assert (NoDup (Ticket.id <$> tickets initial)) as Hnd by decide_by_compute.
  split; [reflexivity|]. split; [exact Hnd|].
  destruct (step initial (PressAction 2)) as [st'|] eqn:Hstep; [|by vm_compute in Hstep].
  destruct (action_advances initial 2 _ eq_refl) as [_ Hadv].
  destruct (Hadv st' Hstep Hnd) as (s & Hts & [[Hs ->]|[Hs ->]]); [|by vm_compute in Hs].
  exists st', UnderAssistance. split; [reflexivity|]. split; [|reflexivity].
  by rewrite Hts.
Defined.
